(** * NFT trade collection and decoding: a shallow embedding

    The development follows [NFT_CSVcreation.py], which holds three scripts:
    the resumable subgraph collector (first script), a variant of it without
    the failure handling (second script) and the web3 transaction decoder
    (third script).  The first and the third are embedded here.
    Python values are embedded as Rocq data, exceptions as an explicit
    result type, dictionaries as [gmap], and every call that leaves the
    process (HTTP, JSON-RPC, the random generator, the local time zone) as a
    section variable. *)

From stdpp Require Import gmap strings list fin_maps pretty sorting.
From Stdlib Require Import ZArith QArith Lia.

#[local] Set Warnings "-register-all".
#[local] Open Scope Z_scope.

(** ** The Python runtime fragment used by the scripts *)
Module Python.

(** Exception classes that occur in the scripts.  [KeyboardInterrupt] and
    [SystemExit] derive from [BaseException] only, so [except Exception]
    lets them through. *)
Inductive exn : Type :=
  | ValueError
  | TypeError
  | AttributeError
  | OverflowError
  | IndexError
  | ZeroDivisionError
  | RequestException
  | JSONDecodeError
  | TransactionNotFound
  | KeyboardInterrupt
  | SystemExit.

Definition is_Exception (e : exn) : bool :=
  match e with
  | KeyboardInterrupt | SystemExit => false
  | _ => true
  end.

(** A call either returns a value or raises. *)
Inductive result (A : Type) : Type :=
  | Return (a : A)
  | Raise (e : exn).
Arguments Return {A} a.
Arguments Raise {A} e.

#[global] Instance result_ret : MRet result := @Return.
#[global] Instance result_bind : MBind result := λ A B f r,
  match r with
  | Return a => f a
  | Raise e => Raise e
  end.

(** [try: body / except Exception: handler] *)
Definition try_except_Exception {A} (body : result A) (handler : exn → result A) : result A :=
  match body with
  | Return a => Return a
  | Raise e => if is_Exception e then handler e else Raise e
  end.

(** A binary64 float, kept symbolically: [FFinite m e] is [m * 2^e]. *)
Inductive pyfloat : Type :=
  | FNan
  | FInf (negative : bool)
  | FFinite (m e : Z).

(** Values produced by [response.json()]. *)
Inductive json : Type :=
  | JNull
  | JBool (b : bool)
  | JInt (z : Z)
  | JFloat (f : pyfloat)
  | JStr (s : string)
  | JList (l : list json)
  | JObj (m : gmap string json).

(** What [requests.post] and [requests.get] hand back: the status and the
    outcome of [response.json()]. *)
Record Response : Type := {
  status_code : Z;
  response_json : result json
}.

(** Truth value of an object in a condition ([if not batch]). *)
Definition truthy (v : json) : bool :=
  match v with
  | JNull => false
  | JBool b => b
  | JInt z => negb (z =? 0)
  | JFloat (FFinite m _) => negb (m =? 0)
  | JFloat _ => true
  | JStr s => negb (String.length s =? 0)%nat
  | JList l => negb (length l =? 0)%nat
  | JObj m => negb (size m =? 0)%nat
  end.

(** [for x in v]: the elements of a list, the keys of a dict, the characters
    of a str; other values are not iterable. *)
Definition iter (v : json) : result (list json) :=
  match v with
  | JList l => Return l
  | JObj m => Return (JStr <$> (map_to_list m).*1)
  | JStr s => Return ((λ c, JStr (String c EmptyString)) <$> String.list_ascii_of_string s)
  | _ => Raise TypeError
  end.

(** [v.get(key, dflt)]: only dicts have a [get] method. *)
Definition get (v : json) (key : string) (dflt : json) : result json :=
  match v with
  | JObj m => Return (default dflt (m !! key))
  | _ => Raise AttributeError
  end.

(** *** [int(x)] *)

Definition code (c : Ascii.ascii) : Z := Z.of_N (Ascii.N_of_ascii c).

(** [Py_ISSPACE] on an ASCII character. *)
Definition is_space (c : Ascii.ascii) : bool :=
  ((9 <=? code c) && (code c <=? 13)) || (code c =? 32).

Definition digit_value (c : Ascii.ascii) : option Z :=
  if (48 <=? code c) && (code c <=? 57) then Some (code c - 48) else None.

Definition is_underscore (c : Ascii.ascii) : bool := code c =? 95.

(** Digits with single underscores between them; returns the value, the
    number of digits and the unread rest, or [None] on a doubled or trailing
    underscore. *)
Fixpoint scan_digits (s : list Ascii.ascii) (prev_underscore : bool) (acc : Z) (digits : nat)
  : option (Z * nat * list Ascii.ascii) :=
  match s with
  | [] => if prev_underscore then None else Some (acc, digits, [])
  | c :: s' =>
      if is_underscore c then
        if prev_underscore then None else scan_digits s' true acc digits
      else
        match digit_value c with
        | Some d => scan_digits s' false (10 * acc + d) (S digits)
        | None => if prev_underscore then None else Some (acc, digits, s)
        end
  end.

Fixpoint lstrip (s : list Ascii.ascii) : list Ascii.ascii :=
  match s with
  | c :: s' => if is_space c then lstrip s' else s
  | [] => []
  end.

(** [sys.get_int_max_str_digits()], CPython's default. *)
Definition int_max_str_digits : nat := 4300.

(** [int(s)] for an ASCII [str] in base 10: optional surrounding white
    space, an optional sign, then digits.  A character outside ASCII is
    rejected here (CPython also accepts Unicode decimal digits and spaces). *)
Definition int_of_str (s : string) : result Z :=
  let s0 := lstrip (String.list_ascii_of_string s) in
  let '(negative, s1) :=
    match s0 with
    | c :: s' => if code c =? 45 then (true, s')
                 else if code c =? 43 then (false, s') else (false, s0)
    | [] => (false, s0)
    end in
  match s1 with
  | c :: _ =>
      if is_underscore c then Raise ValueError
      else
        match scan_digits s1 false 0 0 with
        | Some (v, digits, rest) =>
            if (digits =? 0)%nat then Raise ValueError
            else if negb (length (lstrip rest) =? 0)%nat then Raise ValueError
            else if (int_max_str_digits <? digits)%nat then Raise ValueError
            else Return (if negative then - v else v)
        | None => Raise ValueError
        end
  | [] => Raise ValueError
  end.

(** [int(x)] on a float truncates towards zero. *)
Definition int_of_float (f : pyfloat) : result Z :=
  match f with
  | FNan => Raise ValueError
  | FInf _ => Raise OverflowError
  | FFinite m e => Return (if 0 <=? e then m * 2 ^ e else Z.quot m (2 ^ (- e)))
  end.

Definition int (v : json) : result Z :=
  match v with
  | JInt z => Return z
  | JBool b => Return (if b then 1 else 0)
  | JFloat f => int_of_float f
  | JStr s => int_of_str s
  | JNull | JList _ | JObj _ => Raise TypeError
  end.

(** [str(n)] for an int. *)
Definition str (n : Z) : string := pretty n.

(** [s.lower()] on ASCII text. *)
Definition lower_ascii (c : Ascii.ascii) : Ascii.ascii :=
  if (65 <=? code c) && (code c <=? 90)
  then Ascii.ascii_of_N (Z.to_N (code c + 32)) else c.

Fixpoint lower (s : string) : string :=
  match s with
  | EmptyString => EmptyString
  | String c s' => String (lower_ascii c) (lower s')
  end.

(** [l[i]] with Python's negative indices. *)
Definition index {A} (l : list A) (i : Z) : result A :=
  let n := Z.of_nat (length l) in
  let j := if i <? 0 then i + n else i in
  if (j <? 0) || (n <=? j) then Raise IndexError
  else match l !! Z.to_nat j with
       | Some x => Return x
       | None => Raise IndexError
       end.

(** [a % b]: the sign follows the divisor, as [Z.modulo] does. *)
Definition mod_ (a b : Z) : result Z :=
  if b =? 0 then Raise ZeroDivisionError else Return (a mod b).

(** [len(range(start, stop, step))] for a non-zero step, and
    [list(range(start, stop, step))]; a zero step raises. *)
Definition range_len (start stop step : Z) : Z :=
  if 0 <? step then
    (if start <? stop then (stop - start - 1) / step + 1 else 0)
  else
    (if stop <? start then (start - stop - 1) / (- step) + 1 else 0).

Definition range (start stop step : Z) : result (list Z) :=
  if step =? 0 then Raise ValueError
  else Return ((λ i : nat, start + Z.of_nat i * step)
                 <$> seq 0 (Z.to_nat (range_len start stop step))).

(** *** [datetime] *)

Record datetime : Type := {
  year : Z; month : Z; day : Z;
  hour : Z; minute : Z; second : Z
}.

(** Proleptic Gregorian date of a day number counted from 1970-01-01. *)
Definition civil_from_days (days : Z) : Z * Z * Z :=
  let z := days + 719468 in
  let era := z / 146097 in
  let doe := z - era * 146097 in
  let yoe := (doe - doe / 1460 + doe / 36524 - doe / 146096) / 365 in
  let doy := doe - (365 * yoe + yoe / 4 - yoe / 100) in
  let mp := (5 * doy + 2) / 153 in
  let d := doy - (153 * mp + 2) / 5 + 1 in
  let m := if mp <? 10 then mp + 3 else mp - 9 in
  let y := yoe + era * 400 + (if m <=? 2 then 1 else 0) in
  (y, m, d).

Definition days_from_civil (y m d : Z) : Z :=
  let y' := if m <=? 2 then y - 1 else y in
  let era := y' / 400 in
  let yoe := y' - era * 400 in
  let doy := (153 * (if 2 <? m then m - 3 else m + 9) + 2) / 5 + d - 1 in
  let doe := yoe * 365 + yoe / 4 - yoe / 100 + doy in
  era * 146097 + doe - 719468.

Definition MINYEAR : Z := 1.
Definition MAXYEAR : Z := 9999.

(** [datetime.fromtimestamp(ts)]: local wall-clock time.  The zone rule of
    the process is [utcoffset] (seconds east of UTC at that instant).  A
    value outside the platform [time_t] raises [OverflowError], a year
    outside [MINYEAR..MAXYEAR] raises [ValueError]. *)
Definition fromtimestamp (utcoffset : Z → Z) (ts : Z) : result datetime :=
  if (ts <? - 2 ^ 63) || (2 ^ 63 <=? ts) then Raise OverflowError
  else
    let local := ts + utcoffset ts in
    let days := local / 86400 in
    let secs := local mod 86400 in
    let '(y, m, d) := civil_from_days days in
    if (y <? MINYEAR) || (MAXYEAR <? y) then Raise ValueError
    else Return {| year := y; month := m; day := d;
                   hour := secs / 3600;
                   minute := (secs mod 3600) / 60;
                   second := secs mod 60 |}.

(** [dt.weekday()]: 0 is Monday; 1970-01-01 was a Thursday. *)
Definition weekday (dt : datetime) : Z :=
  (days_from_civil (year dt) (month dt) (day dt) + 3) mod 7.

(** Decimal text of [n], left-padded with zeros to [width] characters. *)
Definition zfill (width : nat) (n : Z) : string :=
  let s := str n in
  String.concat "" (replicate (width - String.length s) "0") +:+ s.

(** [dt.strftime('%Y-%m-%d')] and [dt.strftime('%H:%M:%S')] *)
Definition strftime_date (dt : datetime) : string :=
  zfill 4 (year dt) +:+ "-" +:+ zfill 2 (month dt) +:+ "-" +:+ zfill 2 (day dt).

Definition strftime_time (dt : datetime) : string :=
  zfill 2 (hour dt) +:+ ":" +:+ zfill 2 (minute dt) +:+ ":" +:+ zfill 2 (second dt).

End Python.

(** ** First script: the resumable subgraph collector *)
Module Collector.
Import Python.

(** The dictionary returned by [parse_sale_data].  The five pass-through
    fields keep whatever JSON value the raw record held. *)
Record TradeRecord : Type := {
  transaction_hash : json;
  order_hash : json;
  seller : json;
  buyer : json;
  zone : json;
  timestamp : Z;
  date : string;
  time : string;
  day_of_week : Z;
  day_name : string;
  hour : Z;
  is_weekend : bool;
  block_number : Z
}.

Definition weekday_names : list string :=
  ["Monday"; "Tuesday"; "Wednesday"; "Thursday"; "Friday"; "Saturday"; "Sunday"].

Section Normalizer.

(** Zone rule of the machine the script runs on. *)
Variable utcoffset : Z → Z.

(** The statements inside the [try] of [parse_sale_data]. *)
Definition parse_sale_data_body (sale : json) : result TradeRecord :=
  transaction_hash ← get sale "transactionHash" (JStr "");
  offerer ← get sale "offerer" (JStr "");
  recipient ← get sale "recipient" (JStr "");
  zone ← get sale "zone" (JStr "");
  order_hash ← get sale "orderHash" (JStr "");
  raw_timestamp ← get sale "blockTimestamp" (JStr "0");
  block_timestamp ← int raw_timestamp;
  raw_number ← get sale "blockNumber" (JStr "0");
  block_number ← int raw_number;
  date_time ← fromtimestamp utcoffset block_timestamp;
  let date_str := strftime_date date_time in
  let time_str := strftime_time date_time in
  let day_of_week := weekday date_time in
  day_name ← index weekday_names day_of_week;
  let hour := Python.hour date_time in
  let is_weekend := 5 <=? day_of_week in
  Return {| transaction_hash := transaction_hash;
            order_hash := order_hash;
            seller := offerer;
            buyer := recipient;
            zone := zone;
            timestamp := block_timestamp;
            date := date_str;
            time := time_str;
            day_of_week := day_of_week;
            day_name := day_name;
            hour := hour;
            is_weekend := is_weekend;
            block_number := block_number |}.

(** [parse_sale_data]: the body under [except Exception: return None]. *)
Definition parse_sale_data (sale : json) : result (option TradeRecord) :=
  try_except_Exception
    (r ← parse_sale_data_body sale; Return (Some r))
    (λ _, Return None).

End Normalizer.

(** *** The page fetcher *)

(** [key in v] *)
Definition contains (key : string) (v : json) : result bool :=
  match v with
  | JObj m => Return (bool_decide (is_Some (m !! key)))
  | JList l => Return (existsb (λ x, match x with
                                     | JStr s => String.eqb s key
                                     | _ => false
                                     end) l)
  | JStr s => Return (match String.index 0 key s with
                      | Some _ => true
                      | None => false
                      end)
  | _ => Raise TypeError
  end.

(** *** The collection loop *)

(** How one iteration of the [for] loop ends; for the whole loop, [Continue]
    means that the range was exhausted and [Break] that [break] was taken. *)
Inductive flow : Type := Continue | Break.

(** The local variables of [collect_and_process_nft_sales], the content of
    [temp_nft_transactions.csv], and a ghost log of the requests issued:
    each entry pairs the [skip] that was sent with [processed_count] at that
    moment. *)
Record CollectionState : Type := {
  all_sales : list TradeRecord;
  processed_count : Z;
  error_count : Z;
  temp_file : option (list TradeRecord);
  fetch_log : list (Z * Z)
}.

Definition set_all_sales (v : list TradeRecord) (st : CollectionState) : CollectionState :=
  {| all_sales := v; processed_count := processed_count st;
     error_count := error_count st; temp_file := temp_file st;
     fetch_log := fetch_log st |}.

Definition set_processed_count (v : Z) (st : CollectionState) : CollectionState :=
  {| all_sales := all_sales st; processed_count := v;
     error_count := error_count st; temp_file := temp_file st;
     fetch_log := fetch_log st |}.

Definition set_error_count (v : Z) (st : CollectionState) : CollectionState :=
  {| all_sales := all_sales st; processed_count := processed_count st;
     error_count := v; temp_file := temp_file st;
     fetch_log := fetch_log st |}.

(** [pd.DataFrame(all_sales).to_csv(temp_file)]: the file is overwritten. *)
Definition save_progress (st : CollectionState) : CollectionState :=
  {| all_sales := all_sales st; processed_count := processed_count st;
     error_count := error_count st; temp_file := Some (all_sales st);
     fetch_log := fetch_log st |}.

Definition log_fetch (skip : Z) (st : CollectionState) : CollectionState :=
  {| all_sales := all_sales st; processed_count := processed_count st;
     error_count := error_count st; temp_file := temp_file st;
     fetch_log := fetch_log st ++ [(skip, processed_count st)] |}.

Definition max_errors : Z := 5.

Section Collection.

Variable utcoffset : Z → Z.

(** The subgraph endpoint: the outcome of posting the query built from
    [first] and [skip]. *)
Variable requests_post : Z → Z → result Response.

Definition fetch_nft_sales (first skip : Z) : result json :=
  try_except_Exception
    (response ← requests_post first skip;
     if negb (status_code response =? 200) then Return (JList [])
     else
       data ← response_json response;
       has_errors ← contains "errors" data;
       if (has_errors : bool) then Return (JList [])
       else
         inner ← get data "data" (JObj ∅);
         get inner "orderFulfilleds" (JList []))
    (λ _, Return (JList [])).

(** The inner [for sale in batch] loop: appends to [all_sales] and counts.
    The list is returned even when a call raises, as the appends already
    made stay in place. *)
Fixpoint process_batch (batch : list json) (all_sales : list TradeRecord) (new_records : Z)
  : list TradeRecord * result Z :=
  match batch with
  | [] => (all_sales, Return new_records)
  | sale :: rest =>
      match parse_sale_data utcoffset sale with
      | Raise e => (all_sales, Raise e)
      | Return None => process_batch rest all_sales new_records
      | Return (Some processed_sale) =>
          process_batch rest (all_sales ++ [processed_sale]) (new_records + 1)
      end
  end.

(** The inner [except Exception] of the loop: report, sleep, go on with the
    next [skip]. *)
Definition except_batch (e : exn) (st : CollectionState) : result (flow * CollectionState) :=
  if is_Exception e then Return (Continue, st) else Raise e.

Section Loop.

Variables total_records batch_size save_interval : Z.

(** One iteration of [for skip in range(...)]. *)
Definition loop_body (skip : Z) (st : CollectionState) : result (flow * CollectionState) :=
  let st := log_fetch skip st in
  batch ← fetch_nft_sales batch_size skip;
  if negb (truthy batch) then
    let st1 := set_error_count (error_count st + 1) st in
    if max_errors <=? error_count st1 then Return (Break, st1)
    else Return (Continue, st1)
  else
    let st1 := set_error_count 0 st in
    match iter batch with
    | Raise e => except_batch e st1
    | Return sales =>
        let '(appended, counted) := process_batch sales (all_sales st1) 0 in
        let st2 := set_all_sales appended st1 in
        match counted with
        | Raise e => except_batch e st2
        | Return new_records =>
            let st3 := set_processed_count (processed_count st2 + new_records) st2 in
            match mod_ (processed_count st3) save_interval with
            | Raise e => except_batch e st3
            | Return r =>
                if (r =? 0) || (total_records <=? processed_count st3)
                then Return (Continue, save_progress st3)
                else Return (Continue, st3)
            end
        end
    end.

Fixpoint for_loop (skips : list Z) (st : CollectionState) : result (flow * CollectionState) :=
  match skips with
  | [] => Return (Continue, st)
  | skip :: rest =>
      r ← loop_body skip st;
      match r with
      | (Break, st') => Return (Break, st')
      | (Continue, st') => for_loop rest st'
      end
  end.

(** The state before the loop: resumed from the temp file when it exists. *)
Definition initial_state (disk : option (list TradeRecord)) : CollectionState :=
  match disk with
  | Some rows =>
      {| all_sales := rows; processed_count := Z.of_nat (length rows);
         error_count := 0; temp_file := disk; fetch_log := [] |}
  | None =>
      {| all_sales := []; processed_count := 0;
         error_count := 0; temp_file := None; fetch_log := [] |}
  end.

(** The function up to the end of the loop, with its locals. *)
Definition run_collection (disk : option (list TradeRecord)) : result (flow * CollectionState) :=
  let st := initial_state disk in
  skips ← range (processed_count st) total_records batch_size;
  for_loop skips st.

(** The returned data frame holds [all_sales] (an empty frame when there
    are none). *)
Definition collect_and_process_nft_sales (disk : option (list TradeRecord))
  : result (list TradeRecord) :=
  '(_, st) ← run_collection disk;
  Return (all_sales st).

End Loop.

End Collection.

(** *** The sample for the language model *)

(** A row of [llm_nft_transactions_sample.csv]. *)
Record SampleRow : Type := {
  s_transaction_index : Z;
  s_transaction_hash : json;
  s_seller : json;
  s_buyer : json;
  s_date : string;
  s_time : string;
  s_day_name : string;
  s_hour : Z;
  s_is_weekend : bool
}.

(** [l[:n]] and [l[n:]] with Python's negative bounds. *)
Definition slice_to {A} (n : Z) (l : list A) : list A :=
  let len := Z.of_nat (length l) in
  take (Z.to_nat (if n <? 0 then n + len else n)) l.

Definition slice_from {A} (n : Z) (l : list A) : list A :=
  let len := Z.of_nat (length l) in
  drop (Z.to_nat (if n <? 0 then n + len else n)) l.

(** [df.take(locs)]: the rows at the given positions, in that order. *)
Fixpoint take_rows {A} (l : list A) (locs : list nat) : result (list A) :=
  match locs with
  | [] => Return []
  | i :: locs' =>
      match l !! i with
      | None => Raise IndexError
      | Some x => rows ← take_rows l locs'; Return (x :: rows)
      end
  end.

(** The selected columns of an indexed row. *)
Definition select_columns (row : Z * TradeRecord) : SampleRow :=
  {| s_transaction_index := row.1;
     s_transaction_hash := transaction_hash row.2;
     s_seller := seller row.2;
     s_buyer := buyer row.2;
     s_date := date row.2;
     s_time := time row.2;
     s_day_name := day_name row.2;
     s_hour := hour row.2;
     s_is_weekend := is_weekend row.2 |}.

Section Sampling.

(** [sales_df.sort_values("timestamp", ascending=False)]: pandas sorts with
    an unstable quicksort, so the order among equal timestamps is left to
    the library. *)
Variable sort_values_timestamp_desc : list TradeRecord → list TradeRecord.

(** [RandomState.permutation(n)], from which [choice] without replacement
    takes a prefix. *)
Variable permutation : nat → list nat.

(** [df.sample(n)] *)
Definition sample {A} (n : Z) (df : list A) : result (list A) :=
  if n <? 0 then Raise ValueError
  else if Z.of_nat (length df) <? n then Raise ValueError
  else take_rows df (take (Z.to_nat n) (permutation (length df))).

(** [prepare_data_for_llm], up to the rows written to
    [llm_nft_transactions_sample.csv]. *)
Definition prepare_data_for_llm (sales_df : list TradeRecord) (sample_size : Z)
  : result (list SampleRow) :=
  let sorted := sort_values_timestamp_desc sales_df in
  let len := Z.of_nat (length sorted) in
  let indexed := zip (Z.of_nat <$> seq 1 (length sorted)) sorted in
  let selected : result (list (Z * TradeRecord)) :=
    if sample_size <? len then
      let recent_records := Z.min (sample_size / 2) len in
      let recent_df := slice_to recent_records indexed in
      older_df ← sample (sample_size - recent_records) (slice_from recent_records indexed);
      Return (recent_df ++ older_df)
    else Return indexed in
  llm_sales ← selected;
  Return (select_columns <$> (llm_sales : list (Z * TradeRecord))).

End Sampling.

(** A stable merge sort, one admissible instance of the library sort. *)
Definition newer_first (a b : TradeRecord) : Prop := timestamp b ≤ timestamp a.

#[global] Instance newer_first_dec a b : Decision (newer_first a b).
Proof. unfold newer_first. apply _. Defined.

Definition merge_sort_desc : list TradeRecord → list TradeRecord :=
  merge_sort newer_first.

End Collector.

(** ** Third script: decoding a Seaport transaction *)
Module Decoder.
Import Python.

(** [NFT_COLLECTIONS = {}] *)
Definition NFT_COLLECTIONS : gmap string string := ∅.

Definition item_types : gmap Z string :=
  <[0 := "NATIVE"]> (<[1 := "ERC20"]> (<[2 := "ERC721"]> ∅)).

(** [item_types.get(item_type, f"UNKNOWN ({item_type})")] *)
Definition get_item_type_name (item_type : Z) : string :=
  default ("UNKNOWN (" +:+ str item_type +:+ ")") (item_types !! item_type).

(** *** Numbers handed around by web3 *)

(** [Decimal]: [coefficient * 10 ^ exponent]. *)
Record Decimal : Type := { coefficient : Z; exponent : Z }.

(** [from_wei] returns the int [0] or a [Decimal]. *)
Inductive number : Type :=
  | NInt (z : Z)
  | NDecimal (d : Decimal).

Definition units : gmap string Z :=
  <["wei" := 0]> (<["kwei" := 3]> (<["mwei" := 6]> (<["gwei" := 9]>
  (<["szabo" := 12]> (<["finney" := 15]> (<["ether" := 18]> ∅)))))).

Definition MAX_WEI : Z := 2 ^ 256 - 1.

(** [Web3.from_wei(number, unit)] of the web3 library (not part of the
    script): the quotient by the unit's power of ten, exact at the 999
    digits of precision the library sets; [units] lists the decimal
    exponents of the common unit names. *)
Definition from_wei (n : Z) (unit : string) : result number :=
  match units !! lower unit with
  | None => Raise ValueError
  | Some k =>
      if n =? 0 then Return (NInt 0)
      else if (n <? 0) || (MAX_WEI <? n) then Raise ValueError
      else Return (NDecimal {| coefficient := n; exponent := - k |})
  end.

(** *** Chain data *)

Record Transaction : Type := {
  tx_from : string;
  tx_to : option string;
  gasPrice : Z
}.

Record Log : Type := {
  address : string;
  topics : list string;
  data : string
}.

Record Receipt : Type := {
  blockNumber : Z;
  gasUsed : Z;
  logs : list Log
}.

Record Block : Type := { timestamp : Z }.

Record SpentItem : Type := {
  o_itemType : Z;
  o_token : string;
  o_identifier : Z;
  o_amount : Z
}.

Record ReceivedItem : Type := {
  itemType : Z;
  token : string;
  identifier : Z;
  amount : Z;
  recipient : string
}.

(** The [args] of a decoded [OrderFulfilled] event. *)
Record OrderFulfilled : Type := {
  orderHash : list Byte.byte;
  offerer : string;
  zone : string;
  ev_recipient : string;
  offer : list SpentItem;
  consideration : list ReceivedItem
}.

(** [bytes.hex()] *)
Definition hex_digit (n : N) : Ascii.ascii :=
  Ascii.ascii_of_N (if (n <? 10)%N then 48 + n else 87 + n)%N.

Fixpoint hex (b : list Byte.byte) : string :=
  match b with
  | [] => EmptyString
  | x :: b' =>
      let n := Byte.to_N x in
      String (hex_digit (n / 16)%N) (String (hex_digit (n mod 16)%N) (hex b'))
  end.

(** *** The decoder *)

(** An entry of [nft_items]; the last two keys exist for NFT items only. *)
Record OfferInfo : Type := {
  n_item_type : Z;
  n_item_type_name : string;
  n_token_address : string;
  n_token_id : Z;
  n_amount : Z;
  is_nft : bool;
  collection_name : option string;
  opensea_link : option string
}.

Section Web3.

(** Zone rule of the machine, the Etherscan endpoint, the node and the
    contract object with its event decoder. *)
Variable utcoffset : Z → Z.
Variable requests_get : string → result Response.
Variable get_transaction : string → result Transaction.
Variable get_transaction_receipt : string → result Receipt.
Variable get_block : Z → result Block.
Variable seaport_address : string.
Variable process_log : Log → result OrderFulfilled.

(** Binary64 arithmetic is left to the platform: the carrier, the rounding
    conversion [float(x)] and the rounding addition. *)
Variable float64 : Type.
Variable float : number → float64.
Variable float_add : float64 → float64 → float64.

(** [total_eth_value] starts as the int [0] and becomes a float with the
    first addition. *)
Inductive price : Type :=
  | PInt (z : Z)
  | PFloat (f : float64).

Definition price_add (total : price) (amount_eth : float64) : price :=
  match total with
  | PInt z => PFloat (float_add (float (NInt z)) amount_eth)
  | PFloat f => PFloat (float_add f amount_eth)
  end.

(** An entry of [payment_items]; [amount_eth] exists for currency items. *)
Record PaymentInfo : Type := {
  p_item_type : Z;
  p_item_type_name : string;
  p_token_address : string;
  p_token_id : Z;
  p_amount : Z;
  p_recipient : string;
  amount_eth : option float64
}.

(** The dictionary returned by [decode_transaction]. *)
Record TransactionInfo : Type := {
  i_hash : string;
  i_from : string;
  i_to : option string;
  i_block_number : Z;
  i_timestamp : Z;
  i_datetime : string;
  i_gas_used : Z;
  i_gas_price : number;
  i_tx_fee_eth : number;
  has_order_fulfilled : bool;
  order_hash : string;
  i_offerer : string;
  i_zone : string;
  i_recipient : string;
  total_price_eth : price;
  nft_items : list OfferInfo;
  payment_items : list PaymentInfo
}.

Definition get_collection_name (token_address : string) : result string :=
  let address_lower := lower token_address in
  match NFT_COLLECTIONS !! address_lower with
  | Some name => Return name
  | None =>
      let api_key := "WVHKCRZKBCJY35AT4QP7Y9386B18Q864QD" in
      let url := "https://api.etherscan.io/api?module=contract&action=getsourcecode&address="
                 +:+ token_address +:+ "&apikey=" +:+ api_key in
      response ← requests_get url;
      data ← response_json response;
      Return token_address
  end.

(** The scan of [receipt.logs]; a log that does not decode is passed over
    by the bare [except]. *)
Fixpoint scan_logs (logs : list Log) (order_fulfilled_events : list OrderFulfilled)
  : list OrderFulfilled :=
  match logs with
  | [] => order_fulfilled_events
  | log :: rest =>
      if String.eqb (lower (address log)) (lower seaport_address) then
        match process_log log with
        | Return parsed_log => scan_logs rest (order_fulfilled_events ++ [parsed_log])
        | Raise _ => scan_logs rest order_fulfilled_events
        end
      else scan_logs rest order_fulfilled_events
  end.

(** The loop over [event_data.offer]. *)
Fixpoint offer_loop (items : list SpentItem) (nft_items : list OfferInfo)
  : result (list OfferInfo) :=
  match items with
  | [] => Return nft_items
  | item :: rest =>
      let item_type := o_itemType item in
      let base is_nft name link :=
        {| n_item_type := item_type;
           n_item_type_name := get_item_type_name item_type;
           n_token_address := o_token item;
           n_token_id := o_identifier item;
           n_amount := o_amount item;
           is_nft := is_nft; collection_name := name; opensea_link := link |} in
      item_info ←
        (if bool_decide (item_type ∈ [2; 3; 4; 5]) then
           name ← get_collection_name (o_token item);
           Return (base true (Some name)
                     (Some ("https://opensea.io/assets/" +:+ o_token item
                            +:+ "/" +:+ str (o_identifier item))))
         else Return (base false None None));
      offer_loop rest (nft_items ++ [item_info])
  end.

(** The loop over [event_data.consideration]. *)
Fixpoint payment_loop (items : list ReceivedItem) (payment_items : list PaymentInfo)
    (total_eth_value : price) : result (list PaymentInfo * price) :=
  match items with
  | [] => Return (payment_items, total_eth_value)
  | item :: rest =>
      let item_type := itemType item in
      let base amount_eth :=
        {| p_item_type := item_type;
           p_item_type_name := get_item_type_name item_type;
           p_token_address := token item;
           p_token_id := identifier item;
           p_amount := amount item;
           p_recipient := recipient item;
           amount_eth := amount_eth |} in
      if bool_decide (item_type ∈ [0; 1]) then
        wei ← from_wei (amount item) "ether";
        let amount_eth := float wei in
        payment_loop rest (payment_items ++ [base (Some amount_eth)])
          (price_add total_eth_value amount_eth)
      else
        payment_loop rest (payment_items ++ [base None]) total_eth_value
  end.

Definition strftime_datetime (dt : datetime) : string :=
  strftime_date dt +:+ " " +:+ strftime_time dt.

Definition decode_transaction (tx_hash : string) : result TransactionInfo :=
  tx ← get_transaction tx_hash;
  receipt ← get_transaction_receipt tx_hash;
  block ← get_block (blockNumber receipt);
  date_time ← fromtimestamp utcoffset (timestamp block);
  gas_price ← from_wei (gasPrice tx) "gwei";
  tx_fee_eth ← from_wei (gasPrice tx * gasUsed receipt) "ether";
  let order_fulfilled_events := scan_logs (logs receipt) [] in
  event_data ← index order_fulfilled_events 0;
  nft_items ← offer_loop (offer event_data) [];
  paid ← payment_loop (consideration event_data) [] (PInt 0);
  Return {| i_hash := tx_hash;
            i_from := tx_from tx;
            i_to := tx_to tx;
            i_block_number := blockNumber receipt;
            i_timestamp := timestamp block;
            i_datetime := strftime_datetime date_time;
            i_gas_used := gasUsed receipt;
            i_gas_price := gas_price;
            i_tx_fee_eth := tx_fee_eth;
            has_order_fulfilled := true;
            order_hash := hex (orderHash event_data);
            i_offerer := offerer event_data;
            i_zone := zone event_data;
            i_recipient := ev_recipient event_data;
            total_price_eth := paid.2;
            nft_items := nft_items;
            payment_items := paid.1 |}.

End Web3.

Arguments PInt {float64} z.
Arguments PFloat {float64} f.
Arguments price_add {float64} float float_add total amount_eth.
Arguments payment_loop {float64} float float_add items payment_items total_eth_value.
Arguments decode_transaction utcoffset requests_get get_transaction
  get_transaction_receipt get_block seaport_address process_log
  {float64} float float_add tx_hash.
Arguments has_order_fulfilled {float64} t.
Arguments total_price_eth {float64} t.
Arguments payment_items {float64} t.
Arguments amount_eth {float64} p.

End Decoder.

(** ** Second script: the collector without failure handling *)
Module Collector2.
Import Python Collector.

Section Collection.

Variable utcoffset : Z → Z.
Variable requests_post : Z → Z → result Response.

(** No [try] here: a failing request or a body that is no JSON raises, and
    so does an answer that is no dictionary. *)
Definition fetch_nft_sales (first skip : Z) : result json :=
  response ← requests_post first skip;
  if negb (status_code response =? 200) then Return (JList [])
  else
    data ← response_json response;
    inner ← get data "data" (JObj ∅);
    get inner "orderFulfilleds" (JList []).

(** The statements are those inside the [try] of the first script, with
    nothing around them. *)
Definition parse_sale_data (sale : json) : result TradeRecord :=
  parse_sale_data_body utcoffset sale.

(** The inner loop: every record of the page is parsed and appended. *)
Fixpoint process_batch (batch : list json) (all_sales : list TradeRecord) (new_records : Z)
  : result (list TradeRecord * Z) :=
  match batch with
  | [] => Return (all_sales, new_records)
  | sale :: rest =>
      processed_sale ← parse_sale_data sale;
      process_batch rest (all_sales ++ [processed_sale]) (new_records + 1)
  end.

Section Loop.

Variables total_records batch_size save_interval : Z.

(** One iteration; an exception ends the whole function.  The counter of
    consecutive failures of the first script does not exist here and
    [error_count] stays as it is. *)
Definition loop_body (skip : Z) (st : CollectionState) : result (flow * CollectionState) :=
  let st := log_fetch skip st in
  batch ← fetch_nft_sales batch_size skip;
  if negb (truthy batch) then Return (Break, st)
  else
    sales ← iter batch;
    appended ← process_batch sales (all_sales st) 0;
    let st2 := set_all_sales appended.1 st in
    let st3 := set_processed_count (processed_count st2 + appended.2) st2 in
    r ← mod_ (processed_count st3) save_interval;
    if (r =? 0) || (total_records <=? processed_count st3)
    then Return (Continue, save_progress st3)
    else Return (Continue, st3).

Fixpoint for_loop (skips : list Z) (st : CollectionState) : result (flow * CollectionState) :=
  match skips with
  | [] => Return (Continue, st)
  | skip :: rest =>
      r ← loop_body skip st;
      match r with
      | (Break, st') => Return (Break, st')
      | (Continue, st') => for_loop rest st'
      end
  end.

Definition run_collection (disk : option (list TradeRecord)) : result (flow * CollectionState) :=
  let st := initial_state disk in
  skips ← range (processed_count st) total_records batch_size;
  for_loop skips st.

Definition collect_and_process_nft_sales (disk : option (list TradeRecord))
  : result (list TradeRecord) :=
  '(_, st) ← run_collection disk;
  Return (all_sales st).

End Loop.

End Collection.

End Collector2.

(** ** Third script: the batch over a list of transaction hashes *)
Module Orchestrator.
Import Python Decoder.

(** A row of the data frame built by [process_transaction_batch].  The last
    four keys are read from the decoded dictionary with [""] as default. *)
Record SimplifiedRecord {float64 : Type} : Type := {
  hash : string;
  block_number : Z;
  r_timestamp : Z;
  datetime_text : string;
  from_address : string;
  to_address : option string;
  gas_used : Z;
  gas_price_gwei : number;
  tx_fee_eth : number;
  has_nft_trade : bool;
  seller : string;
  buyer : string;
  price_eth : price float64;
  nft_token_address : string;
  nft_token_id : string;
  nft_collection : string;
  nft_type : string
}.
Arguments SimplifiedRecord float64 : clear implicits.

(** [seaport_address] of the script. *)
Definition seaport_address : string := "0x00000000000000ADc04C56Bf30aC9d3c0aAF14dC".

Section Batch.

Variable utcoffset : Z → Z.
Variable requests_get : string → result Response.
Variable get_transaction : string → result Transaction.
Variable get_transaction_receipt : string → result Receipt.
Variable get_block : Z → result Block.

(** [w3.eth.chain_id], read for the greeting, and the event decoder that
    the contract object derives from [SEAPORT_ABI]. *)
Variable chain_id : result Z.
Variable process_log : Log → result OrderFulfilled.

Context {float64 : Type}.
Variable float : number → float64.
Variable float_add : float64 → float64 → float64.

(** The first loop: decode each hash in turn and collect the dictionaries;
    [display_transaction_details] only prints keys that are present. *)
Fixpoint decode_loop (tx_hashes : list string) (all_transactions : list (TransactionInfo float64))
  : result (list (TransactionInfo float64)) :=
  match tx_hashes with
  | [] => Return all_transactions
  | tx_hash :: rest =>
      tx_info ← decode_transaction utcoffset requests_get get_transaction
                  get_transaction_receipt get_block seaport_address process_log
                  float float_add tx_hash;
      decode_loop rest (all_transactions ++ [tx_info])
  end.

(** The second loop's [record], key by key.  The dictionary has no
    [nft_token_address], [nft_token_id], [nft_collection] or [nft_type]
    key, so their [get] yields the default. *)
Definition simplify (tx : TransactionInfo float64) : SimplifiedRecord float64 :=
  {| hash := i_hash _ tx;
     block_number := i_block_number _ tx;
     r_timestamp := i_timestamp _ tx;
     datetime_text := i_datetime _ tx;
     from_address := i_from _ tx;
     to_address := i_to _ tx;
     gas_used := i_gas_used _ tx;
     gas_price_gwei := i_gas_price _ tx;
     tx_fee_eth := i_tx_fee_eth _ tx;
     has_nft_trade := has_order_fulfilled tx;
     seller := i_offerer _ tx;
     buyer := i_recipient _ tx;
     price_eth := total_price_eth tx;
     nft_token_address := "";
     nft_token_id := "";
     nft_collection := "";
     nft_type := "" |}.

Definition process_transaction_batch (tx_hashes : list string)
  : result (list (SimplifiedRecord float64)) :=
  connected ← chain_id;
  all_transactions ← decode_loop tx_hashes [];
  Return (simplify <$> (all_transactions : list (TransactionInfo float64))).

End Batch.

End Orchestrator.

(** ** Vocabulary of the statements and concrete inputs *)
Module Fixtures.
Import Python Collector.

(** A result that, if it raises, raises something [except Exception]
    catches. *)
Definition only_Exception {A} (r : result A) : Prop :=
  match r with
  | Return _ => True
  | Raise e => is_Exception e = true
  end.

(** The records of a page that the normalizer keeps, and the test for the
    ones it drops. *)
Definition kept (utcoffset : Z → Z) (batch : list json) : list TradeRecord :=
  omap (λ sale, match parse_sale_data utcoffset sale with
                | Return o => o
                | Raise _ => None
                end) batch.

Definition is_dropped (utcoffset : Z → Z) (sale : json) : bool :=
  match parse_sale_data utcoffset sale with
  | Return None => true
  | _ => false
  end.

(** What a page adds to [all_sales]: the kept records of an iterable,
    non-empty answer. *)
Definition page_records (utcoffset : Z → Z) (batch : json) : list TradeRecord :=
  match iter batch with
  | Return sales => kept utcoffset sales
  | Raise _ => []
  end.

Definition page_yield (utcoffset : Z → Z) (requests_post : Z → Z → result Response)
    (batch_size skip : Z) : nat :=
  match fetch_nft_sales requests_post batch_size skip with
  | Return batch => if truthy batch then length (page_records utcoffset batch) else 0%nat
  | Raise _ => 0%nat
  end.

(** [processed_count] at the head of each iteration over [skips], starting
    from [pc], given what each page yields. *)
Fixpoint counts_from (yield : Z → nat) (pc : Z) (skips : list Z) : list Z :=
  match skips with
  | [] => []
  | skip :: rest => pc :: counts_from yield (pc + Z.of_nat (yield skip)) rest
  end.

(** [ceil(a / b)] for a positive [b]. *)
Definition ceil_div (a b : Z) : Z := (a + b - 1) / b.

(** An endpoint that cannot be reached, one that always answers with a
    full page of the example record, and one that loses only the first
    page. *)
Definition offline (first skip : Z) : result Response := Raise RequestException.

Definition page_of (sales : list json) : result Response :=
  Return {| status_code := 200;
            response_json :=
              Return (JObj (<["data" := JObj (<["orderFulfilleds" := JList sales]> ∅)]> ∅)) |}.

(** A machine running on UTC. *)
Definition utc (_ : Z) : Z := 0.

(** The record of the end-to-end example of the specification. *)
Definition raw_example : gmap string json :=
  <["transactionHash" := JStr "0xabc"]> (<["offerer" := JStr "0xA"]>
  (<["recipient" := JStr "0xB"]> (<["blockTimestamp" := JStr "1700000000"]>
  (<["blockNumber" := JStr "100"]> ∅)))).

Definition full_pages (first skip : Z) : result Response :=
  page_of (replicate (Z.to_nat first) (JObj raw_example)).

Definition first_page_lost (first skip : Z) : result Response :=
  if skip =? 0 then offline first skip else full_pages first skip.

(** The example record once normalized, as a checkpoint row. *)
Definition sample_record : TradeRecord :=
  {| transaction_hash := JStr "0xabc"; order_hash := JStr "";
     seller := JStr "0xA"; buyer := JStr "0xB"; zone := JStr "";
     timestamp := 1700000000; date := "2023-11-14"; time := "22:13:20";
     day_of_week := 1; day_name := "Tuesday"; hour := 22;
     is_weekend := false; block_number := 100 |}.

(** [n] trades one second apart, oldest first. *)
Definition trades (n : nat) : list TradeRecord :=
  (λ i : nat,
     {| transaction_hash := JStr "0xabc"; order_hash := JStr "";
        seller := JStr "0xA"; buyer := JStr "0xB"; zone := JStr "";
        timestamp := 1700000000 + Z.of_nat i; date := "2023-11-14";
        time := "22:13:20"; day_of_week := 1; day_name := "Tuesday";
        hour := 22; is_weekend := false; block_number := 100 |}) <$> seq 0 n.

(** What a finished run shows: how the loop ended, the final
    [processed_count] and the log of requests. *)
Definition run_summary (r : result (flow * CollectionState))
  : option (flow * Z * list (Z * Z)) :=
  match r with
  | Return (f, st) => Some (f, processed_count st, fetch_log st)
  | Raise _ => None
  end.

Definition final_state (r : result (flow * CollectionState)) : CollectionState :=
  match r with
  | Return (_, st) => st
  | Raise _ => initial_state None
  end.

End Fixtures.

(** ** Vocabulary and concrete inputs for the decoder *)
Module DecoderFixtures.
Import Python Decoder.

(** The exact value [amount / 10^18] as [from_wei] represents it. *)
Definition ether_value (amount : Z) : number :=
  if amount =? 0 then NInt 0
  else NDecimal {| coefficient := amount; exponent := - 18 |}.

(** The rational a [number] stands for. *)
Definition number_to_Q (n : number) : Q :=
  match n with
  | NInt z => inject_Z z
  | NDecimal d =>
      if 0 <=? exponent d
      then inject_Z (coefficient d * 10 ^ exponent d)
      else Qmake (coefficient d) (Z.to_pos (10 ^ (- exponent d)))
  end.

(** A consideration item paid in the native currency or in an ERC20. *)
Definition is_currency (item : ReceivedItem) : bool :=
  (itemType item =? 0) || (itemType item =? 1).

Definition with_recipient (r : string) (item : ReceivedItem) : ReceivedItem :=
  {| itemType := itemType item; token := token item;
     identifier := identifier item; amount := amount item; recipient := r |}.

Section Sum.

Context {float64 : Type}.
Variable float : number → float64.
Variable float_add : float64 → float64 → float64.

(** The sum, in the order of the items and in the platform's arithmetic,
    of the converted amounts of the currency items. *)
Definition eth_sum (items : list ReceivedItem) : price float64 :=
  fold_left (λ total item, price_add float float_add total (float (ether_value (amount item))))
    (List.filter is_currency items) (PInt 0).

End Sum.

(** Exact arithmetic on rationals, as a stand-in for binary64. *)
Definition exact_float (n : number) : Q := Qred (number_to_Q n).
Definition exact_add (a b : Q) : Q := Qred (a + b).

(** A chain with a plain transfer (no log at all) and a Seaport sale. *)
Definition seaport : string := "0x00000000000000ADc04C56Bf30aC9d3c0aAF14dC".

Definition transfer_hash : string := "0x01".
Definition sale_hash : string := "0xa9dfe4c8ddd3f263af79278866586a244b534eaf83e9b3e2aa830f3aabbaeebf".

Definition sale_event : OrderFulfilled :=
  {| orderHash := [Byte.x12; Byte.xab];
     offerer := "0xSeller"; zone := "0xZone"; ev_recipient := "0xBuyer";
     offer := [ {| o_itemType := 1; o_token := "0xWETH"; o_identifier := 0;
                   o_amount := 1000 |} ];
     consideration :=
       [ {| itemType := 0; token := "0x0"; identifier := 0;
            amount := 900000000000000000; recipient := "0xSeller" |};
         {| itemType := 2; token := "0xNFT"; identifier := 7;
            amount := 1; recipient := "0xSeller" |};
         {| itemType := 0; token := "0x0"; identifier := 0;
            amount := 50000000000000000; recipient := "0xFees" |} ] |}.

Definition chain_transaction (tx_hash : string) : result Transaction :=
  Return {| tx_from := "0xBuyer"; tx_to := Some seaport; gasPrice := 20000000000 |}.

Definition chain_receipt (tx_hash : string) : result Receipt :=
  if String.eqb tx_hash sale_hash
  then Return {| blockNumber := 17000000; gasUsed := 150000;
                 logs := [ {| address := "0xNFT"; topics := []; data := "" |};
                           {| address := lower seaport; topics := []; data := "sale" |} ] |}
  else Return {| blockNumber := 17000000; gasUsed := 21000; logs := [] |}.

Definition chain_block (number : Z) : result Block :=
  Return {| timestamp := 1700000000 |}.

Definition chain_process_log (log : Log) : result OrderFulfilled :=
  if String.eqb (data log) "sale" then Return sale_event else Raise ValueError.

Definition etherscan_down (url : string) : result Response := Raise RequestException.

(** A machine running on UTC. *)
Definition utc_zone (_ : Z) : Z := 0.

End DecoderFixtures.

(** ** Further vocabulary and concrete inputs *)
Module ExtraFixtures.
Import Python Collector Fixtures.

(** A call that raises. *)
Definition raises {A} (r : result A) : Prop := ∃ e, r = Raise e.

(** The records that the request at [skip] contributes to [all_sales]:
    those kept from a non-empty answer, none otherwise. *)
Definition page_rows (utcoffset : Z → Z) (requests_post : Z → Z → result Response)
    (batch_size skip : Z) : list TradeRecord :=
  match fetch_nft_sales requests_post batch_size skip with
  | Return batch => if truthy batch then page_records utcoffset batch else []
  | Raise _ => []
  end.

(** An endpoint whose request is interrupted from the keyboard, and one
    that answers with records that cannot be normalized. *)
Definition interrupted (first skip : Z) : result Response := Raise KeyboardInterrupt.

Definition malformed_pages (first skip : Z) : result Response :=
  page_of [JNull; JObj (<["blockTimestamp" := JStr "soon"]> ∅)].

(** An endpoint that has two records in all: the page at offset 0 holds
    them, every later page is empty. *)
Definition dries_up (first skip : Z) : result Response :=
  if skip =? 0 then page_of [JObj raw_example; JObj raw_example] else page_of [].

End ExtraFixtures.

(** ** Further vocabulary and concrete inputs for the decoder *)
Module DecoderExtraFixtures.
Import Python Decoder DecoderFixtures.

(** What a log contributes to [order_fulfilled_events]: its decoded event
    when it comes from the Seaport address and decodes, nothing
    otherwise. *)
Definition seaport_event (seaport_address : string)
    (process_log : Log → result OrderFulfilled) (log : Log) : option OrderFulfilled :=
  if String.eqb (lower (address log)) (lower seaport_address) then
    match process_log log with
    | Return parsed_log => Some parsed_log
    | Raise _ => None
    end
  else None.

(** An offered item of one of the NFT types. *)
Definition is_nft_type (item : SpentItem) : bool :=
  (2 <=? o_itemType item) && (o_itemType item <=? 5).

(** An Etherscan endpoint that answers, a sale of one ERC721 token, and a
    decoder that reads that sale from every log. *)
Definition etherscan_up (url : string) : result Response :=
  Return {| status_code := 200; response_json := Return (JObj ∅) |}.

Definition nft_sale_event : OrderFulfilled :=
  {| orderHash := [Byte.x12; Byte.xab];
     offerer := "0xSeller"; zone := "0xZone"; ev_recipient := "0xBuyer";
     offer := [ {| o_itemType := 2; o_token := "0xNFT"; o_identifier := 7;
                   o_amount := 1 |} ];
     consideration :=
       [ {| itemType := 0; token := "0x0"; identifier := 0;
            amount := 950000000000000000; recipient := "0xSeller" |};
         {| itemType := 0; token := "0x0"; identifier := 0;
            amount := 50000000000000000; recipient := "0xFees" |} ] |}.

Definition nft_process_log (log : Log) : result OrderFulfilled := Return nft_sale_event.

End DecoderExtraFixtures.

(** ** The record normalizer *)
Module NormalizerFacts.
Import Python Collector Fixtures.

Lemma bind_only_Exception {A B} (m : result A) (f : A → result B) :
  only_Exception m → (∀ a, m = Return a → only_Exception (f a)) →
  only_Exception (m ≫= f).
Proof.
  destruct m as [a|e]; simpl; intros Hm Hf; [by apply Hf | done].
Qed.

Lemma get_only_Exception v key dflt : only_Exception (get v key dflt).
Proof. by destruct v. Qed.

Lemma int_of_str_only_Exception s : only_Exception (int_of_str s).
Proof.
  unfold int_of_str.
  destruct (lstrip _) as [|c s0]; simpl; [done|].
  destruct (code c =? 45); [|destruct (code c =? 43)];
    repeat (match goal with
            | |- only_Exception (match ?x with _ => _ end) => destruct x
            | |- only_Exception (if ?x then _ else _) => destruct x
            | |- only_Exception (let '(_, _) := ?x in _) => destruct x
            end; simpl; try done).
Qed.

Lemma int_only_Exception v : only_Exception (int v).
Proof.
  destruct v as [|b|z|f|s|l|m]; simpl; try done.
  - by destruct f.
  - apply int_of_str_only_Exception.
Qed.

Lemma fromtimestamp_only_Exception tz ts : only_Exception (fromtimestamp tz ts).
Proof.
  unfold fromtimestamp.
  destruct (_ || _); [done|].
  destruct (civil_from_days _) as [[y m] d].
  by destruct (_ || _).
Qed.

Lemma index_only_Exception {A} (l : list A) i : only_Exception (index l i).
Proof.
  unfold index. cbv zeta.
  destruct (_ || _); [done|]. by destruct (l !! _).
Qed.

Create HintDb pyexn.
#[local] Hint Resolve get_only_Exception int_only_Exception
  fromtimestamp_only_Exception index_only_Exception : pyexn.

Lemma parse_sale_data_body_only_Exception tz sale :
  only_Exception (parse_sale_data_body tz sale).
Proof.
  unfold parse_sale_data_body.
  repeat (apply bind_only_Exception; [auto with pyexn | intros ? _]).
  done.
Qed.

(** The two outcomes of [parse_sale_data] in terms of its body. *)
Lemma parse_sale_data_cases tz sale :
  (parse_sale_data tz sale = Return None ∧
     ∃ e, parse_sale_data_body tz sale = Raise e) ∨
  (∃ r, parse_sale_data tz sale = Return (Some r) ∧
     parse_sale_data_body tz sale = Return r).
Proof.
  pose proof (parse_sale_data_body_only_Exception tz sale) as H.
  unfold parse_sale_data.
  destruct (parse_sale_data_body tz sale) as [r|e]; simpl in *.
  - right. by exists r.
  - left. rewrite H. eauto.
Qed.

(** C10: whatever the raw record is (a dictionary with missing fields, with
    fields of the wrong type, with a timestamp that does not parse, or no
    dictionary at all), [parse_sale_data] returns to its caller: either
    [None] or a complete record built by the body; no exception leaves
    it. *)
Theorem parse_sale_data_total (utcoffset : Z → Z) (sale : json) :
  parse_sale_data utcoffset sale = Return None ∨
  ∃ r : TradeRecord,
    parse_sale_data utcoffset sale = Return (Some r) ∧
    parse_sale_data_body utcoffset sale = Return r.
Proof.
  destruct (parse_sale_data_cases utcoffset sale) as [[H _]|H]; [by left | by right].
Qed.

(** The end-to-end example of the specification, on a machine on UTC. *)
Lemma parse_sale_data_example :
  parse_sale_data utc (JObj raw_example) = Return (Some sample_record).
Proof. reflexivity. Qed.

Lemma parse_sale_data_None_iff tz sale :
  parse_sale_data tz sale = Return None ↔ ∃ e, parse_sale_data_body tz sale = Raise e.
Proof.
  destruct (parse_sale_data_cases tz sale) as [[H1 H2]|(r & H1 & H2)].
  - by split.
  - rewrite H1, H2. split; [done | by intros [e ?]].
Qed.

(** Whether the body raises is decided by the keys other than
    [transactionHash]. *)
Lemma body_raises_agree tz (m1 m2 : gmap string json) :
  (∀ k, k ≠ "transactionHash" → m1 !! k = m2 !! k) →
  (∃ e, parse_sale_data_body tz (JObj m1) = Raise e) →
  (∃ e, parse_sale_data_body tz (JObj m2) = Raise e).
Proof.
  intros Hagree. unfold parse_sale_data_body. simpl.
  rewrite (Hagree "blockTimestamp"), (Hagree "blockNumber") by done.
  destruct (int (default _ (m2 !! "blockTimestamp"))) as [ts|e1]; simpl; [|eauto].
  destruct (int (default _ (m2 !! "blockNumber"))) as [bn|e2]; simpl; [|eauto].
  destruct (fromtimestamp tz ts) as [dt|e3]; simpl; [|eauto].
  destruct (index weekday_names (weekday dt)) as [name|e4]; simpl; [|eauto].
  by intros [e ?].
Qed.

Lemma kept_cons tz sale batch :
  kept tz (sale :: batch) =
    match parse_sale_data tz sale with
    | Return (Some r) => r :: kept tz batch
    | _ => kept tz batch
    end.
Proof.
  unfold kept at 1. simpl. fold (kept tz batch).
  by destruct (parse_sale_data tz sale) as [[r|]|e].
Qed.

Lemma process_batch_kept tz batch all_sales n :
  process_batch tz batch all_sales n =
    (all_sales ++ kept tz batch, Return (n + Z.of_nat (length (kept tz batch)))).
Proof.
  revert all_sales n. induction batch as [|sale batch IH]; intros all_sales n.
  - simpl. by rewrite app_nil_r, Z.add_0_r.
  - rewrite kept_cons. cbn [process_batch].
    destruct (parse_sale_data_cases tz sale) as [[H _]|(r & H & _)]; rewrite H.
    + apply IH.
    + rewrite IH. cbn [length]. rewrite <- app_assoc. simpl. do 2 f_equal. lia.
Qed.

Lemma kept_length tz batch :
  (length (kept tz batch) + length (List.filter (is_dropped tz) batch))%nat = length batch.
Proof.
  induction batch as [|sale batch IH]; [done|].
  rewrite kept_cons. cbn [List.filter length]. unfold is_dropped at 1.
  destruct (parse_sale_data_cases tz sale) as [[H _]|(r & H & _)]; rewrite H;
    cbn [length]; lia.
Qed.

(** C5: the claim fails on a record that only lacks [transactionHash]: the
    field defaults to the empty string and the record is kept. *)
Lemma missing_transaction_hash_is_kept :
  let m := delete "transactionHash" raw_example in
  m !! "transactionHash" = None ∧
  parse_sale_data utc (JObj m) ≠ Return None ∧
  kept utc [JObj m] ≠ [].
Proof. vm_compute. by repeat split. Qed.

(** C5 (amended): a record whose [blockTimestamp] does not convert with
    [int] is dropped ([None]); whether a record is dropped does not depend
    on [transactionHash] being present, and a record without it gets the
    empty string there; a page's output is its kept records, shorter than
    the page by the number of records for which [None] came back. *)
Theorem unparsable_timestamp_dropped (utcoffset : Z → Z) :
  (∀ m : gmap string json,
     (∀ z, int (default (JStr "0") (m !! "blockTimestamp")) ≠ Return z) →
     parse_sale_data utcoffset (JObj m) = Return None) ∧
  (∀ (m : gmap string json) (v : json),
     parse_sale_data utcoffset (JObj (<["transactionHash" := v]> m)) = Return None ↔
     parse_sale_data utcoffset (JObj (delete "transactionHash" m)) = Return None) ∧
  (∀ (m : gmap string json) (r : TradeRecord),
     m !! "transactionHash" = None →
     parse_sale_data utcoffset (JObj m) = Return (Some r) →
     transaction_hash r = JStr "") ∧
  (∀ (batch : list json) (all_sales : list TradeRecord) (n : Z),
     process_batch utcoffset batch all_sales n =
       (all_sales ++ kept utcoffset batch,
        Return (n + Z.of_nat (length (kept utcoffset batch)))) ∧
     length (kept utcoffset batch) =
       (length batch - length (List.filter (is_dropped utcoffset) batch))%nat).
Proof.
  split; [|split; [|split]].
  - intros m Hint. apply parse_sale_data_None_iff.
    unfold parse_sale_data_body. simpl.
    destruct (int (default _ (m !! "blockTimestamp"))) as [z|e]; [|simpl; eauto].
    by destruct (Hint z).
  - intros m v. rewrite !parse_sale_data_None_iff.
    split; apply body_raises_agree; intros k Hk;
      by rewrite lookup_insert_ne, lookup_delete_ne.
  - intros m r Hnone Hparse.
    destruct (parse_sale_data_cases utcoffset (JObj m)) as [[H _]|(r' & H & Hbody)];
      [congruence|].
    assert (r' = r) as -> by congruence.
    revert Hbody. unfold parse_sale_data_body. simpl. rewrite Hnone. simpl.
    destruct (int (default _ (m !! "blockTimestamp"))) as [ts|]; simpl; [|done].
    destruct (int (default _ (m !! "blockNumber"))) as [bn|]; simpl; [|done].
    destruct (fromtimestamp utcoffset ts) as [dt|]; simpl; [|done].
    destruct (index weekday_names (weekday dt)) as [name|]; simpl; [|done].
    by intros [= <-].
  - intros batch all_sales n. split; [apply process_batch_kept|].
    pose proof (kept_length utcoffset batch). lia.
Qed.

(** The amended statement at the machine on UTC: a timestamp that is no
    number drops the record. *)
Lemma unparsable_timestamp_dropped_witness :
  parse_sale_data utc (JObj (<["blockTimestamp" := JStr "yesterday"]> raw_example))
    = Return None.
Proof.
  apply (proj1 (unparsable_timestamp_dropped utc)).
  intros z. vm_compute. discriminate.
Defined.

End NormalizerFacts.

(** ** The collection loop *)
Module CollectorFacts.
Import Python Collector Fixtures NormalizerFacts.

Section Loop.

Variable utcoffset : Z → Z.
Variable requests_post : Z → Z → result Response.
Variables total_records batch_size save_interval : Z.

Abbreviation fetch := (fetch_nft_sales requests_post batch_size).
Abbreviation body := (loop_body utcoffset requests_post total_records batch_size save_interval).
Abbreviation loop := (for_loop utcoffset requests_post total_records batch_size save_interval).
Abbreviation yield := (page_yield utcoffset requests_post batch_size).

Lemma loop_body_empty skip st batch :
  fetch skip = Return batch → truthy batch = false →
  body skip st =
    Return (if max_errors <=? error_count st + 1 then Break else Continue,
            set_error_count (error_count st + 1) (log_fetch skip st)).
Proof.
  intros Hfetch Hempty. unfold loop_body. rewrite Hfetch. simpl.
  rewrite Hempty. simpl. by destruct (max_errors <=? _).
Qed.

Lemma iter_only_Exception batch : only_Exception (iter batch).
Proof. by destruct batch. Qed.

Lemma loop_body_nonempty skip st batch :
  fetch skip = Return batch → truthy batch = true →
  ∃ st', body skip st = Return (Continue, st') ∧
    error_count st' = 0 ∧
    fetch_log st' = fetch_log st ++ [(skip, processed_count st)] ∧
    all_sales st' = all_sales st ++ page_records utcoffset batch ∧
    processed_count st' =
      processed_count st + Z.of_nat (length (page_records utcoffset batch)).
Proof.
  intros Hfetch Hfull. unfold loop_body, page_records. rewrite Hfetch. simpl.
  rewrite Hfull. simpl.
  pose proof (iter_only_Exception batch) as Hiter.
  destruct (iter batch) as [sales|e]; simpl in Hiter.
  - rewrite process_batch_kept. simpl.
    unfold mod_. destruct (save_interval =? 0); simpl.
    + eexists. split; [done|]. simpl. repeat split; lia.
    + destruct (_ || _); eexists; (split; [done|]); simpl; repeat split; lia.
  - unfold except_batch. rewrite Hiter.
    eexists. split; [done|]. simpl. rewrite app_nil_r. repeat split; lia.
Qed.

(** What an iteration that returns has done. *)
Lemma loop_body_inv skip st f st' :
  body skip st = Return (f, st') →
  fetch_log st' = fetch_log st ++ [(skip, processed_count st)] ∧
  processed_count st' = processed_count st + Z.of_nat (yield skip) ∧
  ((f = Break ∧ error_count st' = error_count st + 1 ∧ max_errors ≤ error_count st') ∨
   (f = Continue ∧ error_count st' = error_count st + 1 ∧ error_count st' < max_errors) ∨
   (f = Continue ∧ error_count st' = 0)).
Proof.
  intros Hbody. unfold page_yield.
  destruct (fetch skip) as [batch|e] eqn:Hfetch.
  - destruct (truthy batch) eqn:Htruthy.
    + destruct (loop_body_nonempty skip st batch Hfetch Htruthy)
        as (st1 & Hst1 & He & Hlog & _ & Hpc).
      rewrite Hst1 in Hbody. injection Hbody as <- <-.
      split; [done|]. split; [done|]. by right; right.
    + rewrite (loop_body_empty skip st batch Hfetch Htruthy) in Hbody.
      injection Hbody as <- <-. simpl.
      split; [done|]. split; [lia|].
      destruct (max_errors <=? error_count st + 1) eqn:Hmax; [left|right; left];
        (split; [done|]); split; try done; lia.
  - unfold loop_body in Hbody. by rewrite Hfetch in Hbody.
Qed.

Lemma for_loop_app skips1 skips2 st :
  loop (skips1 ++ skips2) st =
    r ← loop skips1 st;
    match r with
    | (Break, st') => Return (Break, st')
    | (Continue, st') => loop skips2 st'
    end.
Proof.
  revert st. induction skips1 as [|skip skips1 IH]; intros st; simpl; [done|].
  destruct (body skip st) as [[[] st1]|e]; simpl; [apply IH|done|done].
Qed.

(** The counter stays below the threshold while the loop runs, and [break]
    is taken with the counter at the threshold. *)
Lemma for_loop_error_count skips st f st' :
  0 ≤ error_count st < max_errors →
  loop skips st = Return (f, st') →
  (f = Break ∧ error_count st' = max_errors) ∨
  (f = Continue ∧ 0 ≤ error_count st' < max_errors).
Proof.
  revert st. induction skips as [|skip skips IH]; intros st Hec; simpl.
  - intros [= <- <-]. by right.
  - destruct (body skip st) as [[f1 st1]|e] eqn:Hbody; simpl; [|done].
    apply loop_body_inv in Hbody as (_ & _ & Hcases).
    destruct Hcases as [(-> & He & Hmax)|[(-> & He & Hmax)|(-> & He)]].
    + intros [= <- <-]. left. split; [done|lia].
    + apply IH. lia.
    + apply IH. rewrite He. unfold max_errors. lia.
Qed.

(** The requests of a run: offsets are the range in order, each logged with
    the count reached by the pages before it. *)
Lemma for_loop_trace skips st f st' :
  loop skips st = Return (f, st') →
  ∃ n : nat, (n ≤ length skips)%nat ∧
    fetch_log st' =
      fetch_log st ++ take n (zip skips (counts_from yield (processed_count st) skips)) ∧
    processed_count st' =
      processed_count st + Z.of_nat (sum_list (yield <$> take n skips)) ∧
    (f = Continue → n = length skips).
Proof.
  revert st. induction skips as [|skip skips IH]; intros st; simpl.
  - intros [= <- <-]. exists 0%nat. simpl. rewrite app_nil_r. split_and!; try lia; done.
  - destruct (body skip st) as [[f1 st1]|e] eqn:Hbody; simpl; [|done].
    apply loop_body_inv in Hbody as (Hlog & Hpc & _).
    destruct f1.
    + intros Hrest. apply IH in Hrest as (n & Hn & Hlog' & Hpc' & Hf).
      exists (S n). simpl. rewrite Hlog', Hlog, Hpc', Hpc, <- app_assoc. simpl.
      split_and!; [lia | done | unfold fmap; lia | intros Hc; by rewrite (Hf Hc)].
    + intros [= <- <-]. exists 1%nat. simpl. rewrite Hlog, Hpc, take_0. simpl.
      split_and!; [lia | done | lia | done].
Qed.

(** With every page answered and non-empty the loop runs to the end of the
    range. *)
Lemma for_loop_all_nonempty skips st :
  (∀ skip, skip ∈ skips → ∃ batch, fetch skip = Return batch ∧ truthy batch = true) →
  ∃ st', loop skips st = Return (Continue, st').
Proof.
  revert st. induction skips as [|skip skips IH]; intros st Hall; simpl.
  - by exists st.
  - destruct (Hall skip) as (batch & Hfetch & Hfull); [left|].
    destruct (loop_body_nonempty skip st batch Hfetch Hfull) as (st1 & -> & _).
    simpl. apply IH. intros s Hs. apply Hall. by right.
Qed.

(** Fewer empty pages than the threshold allows: the loop goes on. *)
Lemma for_loop_empties_continue empties st :
  (∀ skip, skip ∈ empties → ∃ batch, fetch skip = Return batch ∧ truthy batch = false) →
  error_count st + Z.of_nat (length empties) < max_errors →
  ∃ st', loop empties st = Return (Continue, st') ∧
    error_count st' = error_count st + Z.of_nat (length empties) ∧
    processed_count st' = processed_count st ∧ all_sales st' = all_sales st.
Proof.
  revert st. induction empties as [|skip empties IH]; intros st Hall Hlt; simpl.
  - exists st. split_and!; [done | simpl; lia | done | done].
  - simpl in Hlt.
    destruct (Hall skip) as (batch & Hfetch & Hempty); [left|].
    rewrite (loop_body_empty skip st batch Hfetch Hempty).
    destruct (max_errors <=? error_count st + 1) eqn:Hmax; [lia|]. simpl.
    destruct (IH (set_error_count (error_count st + 1) (log_fetch skip st)))
      as (st' & Hloop & He & Hpc & Hsales).
    + intros s Hs. apply Hall. by right.
    + simpl. lia.
    + exists st'. split_and!; [done | simpl in He; lia | done | done].
Qed.

(** The empty page that brings the counter to the threshold ends the loop,
    whatever offsets remain. *)
Lemma for_loop_empties_break empties rest st :
  (∀ skip, skip ∈ empties → ∃ batch, fetch skip = Return batch ∧ truthy batch = false) →
  empties ≠ [] →
  error_count st + Z.of_nat (length empties) = max_errors →
  ∃ st', loop (empties ++ rest) st = Return (Break, st') ∧
    error_count st' = max_errors ∧
    processed_count st' = processed_count st ∧ all_sales st' = all_sales st.
Proof.
  revert st. induction empties as [|skip empties IH]; intros st Hall Hne Hsum; [done|].
  simpl in *.
  destruct (Hall skip) as (batch & Hfetch & Hempty); [left|].
  rewrite (loop_body_empty skip st batch Hfetch Hempty).
  destruct empties as [|skip' empties].
  - simpl in Hsum. destruct (max_errors <=? error_count st + 1) eqn:Hmax; [|lia].
    simpl. eexists. split; [done|]. simpl. split_and!; [lia | done | done].
  - destruct (max_errors <=? error_count st + 1) eqn:Hmax; [simpl in Hsum; lia|].
    simpl.
    destruct (IH (set_error_count (error_count st + 1) (log_fetch skip st)))
      as (st' & Hloop & He & Hpc & Hsales).
    + intros s Hs. apply Hall. by right.
    + done.
    + simpl in *. lia.
    + exists st'. by split_and!.
Qed.



(** C2: an empty page adds one to the consecutive-failure counter and
    leaves the records and [processed_count] alone; a non-empty page sets
    the counter to zero; the loop is left by [break] only with the counter
    at 5, and runs on through fewer than five empty pages in a row; five
    empty pages in a row end the run with the records and
    [processed_count] as they were before the five, returned as an
    ordinary result. *)
Theorem breaker_fires_at_fifth_empty_page :
  (∀ skip st batch,
     fetch skip = Return batch → truthy batch = false →
     ∃ f st', body skip st = Return (f, st') ∧
       error_count st' = error_count st + 1 ∧
       all_sales st' = all_sales st ∧
       processed_count st' = processed_count st ∧
       (f = Break ↔ 5 ≤ error_count st')) ∧
  (∀ skip st batch,
     fetch skip = Return batch → truthy batch = true →
     ∃ st', body skip st = Return (Continue, st') ∧ error_count st' = 0) ∧
  (∀ disk f st',
     run_collection utcoffset requests_post total_records batch_size save_interval disk
       = Return (f, st') →
     (f = Break ∧ error_count st' = 5) ∨ (f = Continue ∧ 0 ≤ error_count st' < 5)) ∧
  (∀ empties st,
     (∀ skip, skip ∈ empties → ∃ batch, fetch skip = Return batch ∧ truthy batch = false) →
     error_count st = 0 → (length empties < 5)%nat →
     ∃ st', loop empties st = Return (Continue, st') ∧
       error_count st' = Z.of_nat (length empties)) ∧
  (∀ disk before empties rest st,
     range (processed_count (initial_state disk)) total_records batch_size
       = Return (before ++ empties ++ rest) →
     loop before (initial_state disk) = Return (Continue, st) →
     error_count st = 0 →
     length empties = 5%nat →
     (∀ skip, skip ∈ empties → ∃ batch, fetch skip = Return batch ∧ truthy batch = false) →
     ∃ st',
       run_collection utcoffset requests_post total_records batch_size save_interval disk
         = Return (Break, st') ∧
       processed_count st' = processed_count st ∧
       all_sales st' = all_sales st ∧
       collect_and_process_nft_sales utcoffset requests_post total_records batch_size
         save_interval disk = Return (all_sales st)).
Proof.
  split_and!.
  - intros skip st batch Hfetch Hempty.
    rewrite (loop_body_empty skip st batch Hfetch Hempty).
    do 2 eexists. split; [done|]. simpl. split_and!; try done.
    unfold max_errors. destruct (5 <=? error_count st + 1) eqn:H5; split; try done; lia.
  - intros skip st batch Hfetch Hfull.
    destruct (loop_body_nonempty skip st batch Hfetch Hfull) as (st' & H & He & _).
    by exists st'.
  - intros disk f st'. unfold run_collection.
    destruct (range _ _ _) as [skips|e]; simpl; [|done].
    intros Hloop. apply for_loop_error_count in Hloop; [done|].
    unfold max_errors. by destruct disk.
  - intros empties st Hall He Hlen.
    destruct (for_loop_empties_continue empties st Hall) as (st' & H & He' & _).
    + unfold max_errors. lia.
    + exists st'. split; [done|lia].
  - intros disk before empties rest st Hrange Hbefore He Hlen Hall.
    destruct (for_loop_empties_break empties rest st Hall) as (st' & H & _ & Hpc & Hsales).
    + by destruct empties.
    + unfold max_errors. lia.
    + assert (run_collection utcoffset requests_post total_records batch_size
                save_interval disk = Return (Break, st')) as Hrun.
      { unfold run_collection. rewrite Hrange. simpl.
        rewrite for_loop_app, Hbefore. simpl. done. }
      exists st'. split_and!; try done.
      unfold collect_and_process_nft_sales. rewrite Hrun. simpl. by rewrite Hsales.
Qed.

End Loop.

Section Range.

Lemma range_Return start stop step :
  step ≠ 0 →
  range start stop step =
    Return ((λ i : nat, start + Z.of_nat i * step)
              <$> seq 0 (Z.to_nat (range_len start stop step))).
Proof.
  intros Hstep. unfold range. destruct (step =? 0) eqn:H0; [lia|done].
Qed.

Lemma range_len_ceil_div start stop step :
  start < stop → 0 < step →
  range_len start stop step = ceil_div (stop - start) step.
Proof.
  intros Hlt Hstep. unfold range_len, ceil_div.
  destruct (0 <? step) eqn:H1; [|lia]. destruct (start <? stop) eqn:H2; [|lia].
  replace (stop - start + step - 1) with (stop - start - 1 + 1 * step) by lia.
  rewrite Z.div_add by lia. lia.
Qed.

Lemma ceil_div_bounds d p :
  0 < p → d ≤ ceil_div d p * p < d + p.
Proof.
  intros Hp. unfold ceil_div.
  pose proof (Z.mul_div_le (d + p - 1) p Hp).
  pose proof (Z.mul_succ_div_gt (d + p - 1) p Hp). lia.
Qed.

Lemma ceil_div_exact d p :
  0 < p → ceil_div d p * p = d ↔ (p | d).
Proof.
  intros Hp. split.
  - intros H. exists (ceil_div d p). lia.
  - intros [q ->]. unfold ceil_div.
    replace (q * p + p - 1) with (p - 1 + q * p) by lia.
    rewrite Z.div_add by lia. rewrite Z.div_small by lia. lia.
Qed.

Lemma counts_from_length yield pc skips :
  length (counts_from yield pc skips) = length skips.
Proof.
  revert pc. induction skips as [|skip skips IH]; intros pc; simpl; [done|].
  by rewrite IH.
Qed.

Lemma counts_from_lookup yield pc skips (i : nat) c :
  counts_from yield pc skips !! i = Some c →
  c = pc + Z.of_nat (sum_list (yield <$> take i skips)).
Proof.
  revert pc i. induction skips as [|skip skips IH]; intros pc i; simpl; [done|].
  destruct i as [|i]; simpl.
  - intros [= <-]. lia.
  - intros H. apply IH in H. unfold fmap in *. lia.
Qed.

Lemma sum_list_constant {A} (f : A → nat) (l : list A) (c : nat) :
  (∀ x, x ∈ l → f x = c) → sum_list (f <$> l) = (length l * c)%nat.
Proof.
  induction l as [|x l IH]; intros Hall; simpl; [done|].
  rewrite (Hall x) by left. unfold fmap in IH. rewrite IH; [done|].
  intros y Hy. apply Hall. by right.
Qed.

End Range.

Section Run.

Variable utcoffset : Z → Z.
Variable requests_post : Z → Z → result Response.
Variables total_records batch_size save_interval : Z.

Abbreviation run :=
  (run_collection utcoffset requests_post total_records batch_size save_interval).
Abbreviation yield_at := (page_yield utcoffset requests_post batch_size).

(** The log of a run, entry by entry. *)
Lemma run_collection_log disk f st (i : nat) skip pc :
  run disk = Return (f, st) →
  fetch_log st !! i = Some (skip, pc) →
  let K := processed_count (initial_state disk) in
  let offsets := (λ j : nat, K + Z.of_nat j * batch_size) <$> seq 0 i in
  skip = K + Z.of_nat i * batch_size ∧
  pc = K + Z.of_nat (sum_list (yield_at <$> offsets)).
Proof.
  intros Hrun Hlog K offsets. unfold run_collection in Hrun.
  assert (fetch_log (initial_state disk) = []) as Hnil by by destruct disk.
  unfold range in Hrun. destruct (batch_size =? 0); [done|]. simpl in Hrun.
  apply for_loop_trace in Hrun as (n & Hn & Hfl & _).
  rewrite Hfl, Hnil in Hlog. simpl in Hlog. fold K in Hlog.
  apply lookup_take_Some in Hlog as [Hlog Hi].
  apply lookup_zip_with_Some in Hlog as (x & y & [= <- <-] & Hx & Hy).
  apply list_lookup_fmap_Some in Hx as (j & Hskip & Hj).
  apply lookup_seq in Hj as [-> Hj]. simpl in Hskip.
  split; [done|].
  apply counts_from_lookup in Hy. rewrite Hy. do 3 f_equal.
  rewrite <- fmap_take, take_seq. unfold offsets. by rewrite Nat.min_l by lia.
Qed.

(** C4 (amended): the [i]-th request of a run (counting from 0) goes out at
    offset [K + i * batch_size], where [K] is [processed_count] before the
    loop: the offsets come from the range fixed at the start and advance by
    [batch_size] whatever the pages held, also after an empty page or after
    dropped records.  [processed_count] at that moment is [K] plus what the
    pages before yielded, so the offset equals it exactly when those pages
    yielded [i * batch_size] records. *)
Theorem offsets_follow_initial_range disk f st :
  run disk = Return (f, st) →
  let K := processed_count (initial_state disk) in
  (∀ (i : nat) skip pc,
     fetch_log st !! i = Some (skip, pc) →
     let yielded :=
       sum_list (yield_at <$> ((λ j : nat, K + Z.of_nat j * batch_size) <$> seq 0 i)) in
     skip = K + Z.of_nat i * batch_size ∧
     pc = K + Z.of_nat yielded ∧
     (skip = pc ↔ Z.of_nat yielded = Z.of_nat i * batch_size)) ∧
  (∀ (i : nat) skip pc skip' pc',
     fetch_log st !! i = Some (skip, pc) →
     fetch_log st !! S i = Some (skip', pc') →
     skip' = skip + batch_size ∧ pc' = pc + Z.of_nat (yield_at skip)).
Proof.
  intros Hrun K. split.
  - intros i skip pc Hlog yielded.
    destruct (run_collection_log disk f st i skip pc Hrun Hlog) as [Hskip Hpc].
    fold K in Hskip, Hpc. fold yielded in Hpc. split_and!; [done | done | lia].
  - intros i skip pc skip' pc' Hlog Hlog'.
    destruct (run_collection_log disk f st i skip pc Hrun Hlog) as [Hskip Hpc].
    destruct (run_collection_log disk f st (S i) skip' pc' Hrun Hlog') as [Hskip' Hpc'].
    fold K in Hskip, Hpc, Hskip', Hpc'. split; [lia|].
    rewrite Hpc', Hpc, seq_S, !fmap_app, sum_list_with_app. simpl.
    rewrite <- Hskip. unfold id. lia.
Qed.

(** C3 (amended): resumed from a checkpoint of [K] records below the
    target, with every page of the run full and nothing dropped, the loop
    starts at [processed_count = K], issues exactly
    [ceil((total_records - K) / batch_size)] requests and ends, without
    [break], at [processed_count = K + ceil(...) * batch_size]: at least the
    target, less than a page beyond it, and the target itself exactly when
    [batch_size] divides [total_records - K]. *)
Theorem resume_fetches_ceil_pages (rows : list TradeRecord) :
  let K := Z.of_nat (length rows) in
  let pages := ceil_div (total_records - K) batch_size in
  K < total_records → 0 < batch_size →
  (∀ i : nat, Z.of_nat i < pages →
     ∃ page,
       fetch_nft_sales requests_post batch_size (K + Z.of_nat i * batch_size)
         = Return (JList page) ∧
       Z.of_nat (length page) = batch_size ∧
       length (kept utcoffset page) = length page) →
  processed_count (initial_state (Some rows)) = K ∧
  ∃ st, run (Some rows) = Return (Continue, st) ∧
    Z.of_nat (length (fetch_log st)) = pages ∧
    processed_count st = K + pages * batch_size ∧
    total_records ≤ processed_count st < total_records + batch_size ∧
    (processed_count st = total_records ↔ (batch_size | total_records - K)).
Proof.
  intros K pages HK Hp Hpages. split; [done|].
  pose proof (ceil_div_bounds (total_records - K) batch_size Hp) as Hbounds.
  fold pages in Hbounds.
  set (skips := (λ i : nat, K + Z.of_nat i * batch_size)
                  <$> seq 0 (Z.to_nat (range_len K total_records batch_size))).
  assert (range K total_records batch_size = Return skips) as Hrange
    by (apply range_Return; lia).
  assert (Z.of_nat (length skips) = pages) as Hlen.
  { unfold skips. rewrite length_fmap, length_seq, range_len_ceil_div by done.
    fold pages. nia. }
  assert (∀ skip, skip ∈ skips →
            ∃ page, fetch_nft_sales requests_post batch_size skip = Return (JList page) ∧
              truthy (JList page) = true ∧ yield_at skip = Z.to_nat batch_size) as Hfull.
  { intros skip Hin. apply list_elem_of_fmap in Hin as (i & -> & Hi).
    apply elem_of_seq in Hi.
    destruct (Hpages i) as (page & Hfetch & Hsize & Hkept).
    { rewrite <- Hlen. unfold skips. rewrite length_fmap, length_seq. lia. }
    exists page. split; [done|].
    assert (truthy (JList page) = true) as Htruthy.
    { simpl. destruct page; [simpl in Hsize; lia | done]. }
    split; [done|]. unfold page_yield. rewrite Hfetch, Htruthy.
    unfold page_records. simpl. lia. }
  destruct (for_loop_all_nonempty utcoffset requests_post total_records batch_size
              save_interval skips (initial_state (Some rows))) as [st Hloop].
  { intros skip Hin. destruct (Hfull skip Hin) as (page & Hfetch & Htruthy & _).
    by exists (JList page). }
  exists st.
  assert (run (Some rows) = Return (Continue, st)) as Hrun.
  { unfold run_collection. simpl initial_state. cbn [processed_count].
    fold K. rewrite Hrange. exact Hloop. }
  split; [done|].
  apply for_loop_trace in Hloop as (n & Hn & Hlog & Hpc & Hf).
  specialize (Hf eq_refl). subst n.
  assert (sum_list (yield_at <$> skips) = (length skips * Z.to_nat batch_size)%nat) as Hsum.
  { apply sum_list_constant. intros skip Hin.
    by destruct (Hfull skip Hin) as (_ & _ & _ & ?). }
  rewrite firstn_all in Hpc. rewrite Hsum in Hpc. simpl in Hpc. fold K in Hpc.
  assert (processed_count st = K + pages * batch_size) as Hfinal by nia.
  split_and!.
  - rewrite Hlog. simpl.
    rewrite length_take, length_zip_with, counts_from_length. lia.
  - done.
  - lia.
  - lia.
  - rewrite Hfinal. rewrite <- (ceil_div_exact (total_records - K) batch_size Hp).
    fold pages. lia.
Qed.

End Run.

(** C3: the claim fails when the page size does not divide what is left
    to collect.  Resumed from 100 records towards 250 with pages of 100, all
    pages full and nothing dropped, the run makes the two requests the claim
    counts and ends at 300 records, not 250. *)
Lemma resume_overshoots_target :
  let rows := replicate 100 sample_record in
  Z.of_nat (length rows) < 250 ∧
  ceil_div (250 - Z.of_nat (length rows)) 100 = 2 ∧
  page_yield utc full_pages 100 100 = 100%nat ∧
  page_yield utc full_pages 100 200 = 100%nat ∧
  run_summary (run_collection utc full_pages 250 100 1000 (Some rows))
    = Some (Continue, 300, [(100, 100); (200, 200)]) ∧
  300 ≠ 250.
Proof. vm_compute. split_and!; done. Qed.

(** The amended statement on the same run. *)
Lemma resume_fetches_ceil_pages_witness :
  let rows := replicate 100 sample_record in
  ∃ st, run_collection utc full_pages 250 100 1000 (Some rows) = Return (Continue, st) ∧
    Z.of_nat (length (fetch_log st)) = 2 ∧
    processed_count st = 300.
Proof.
  intros rows.
  destruct (resume_fetches_ceil_pages utc full_pages 250 100 1000 rows)
    as (_ & st & Hrun & Hlen & Hpc & _).
  - vm_compute. reflexivity.
  - lia.
  - intros i _. exists (replicate 100 (JObj raw_example)).
    split_and!; [reflexivity | reflexivity | vm_compute; reflexivity].
  - exists st. split_and!; [exact Hrun | exact Hlen | exact Hpc].
Defined.

(** C4: the claim fails after an empty page.  With the first page lost the
    second request goes out at offset 100 while [processed_count] is still
    0, and the third at 200 with 100 records collected. *)
Lemma offset_runs_ahead_after_empty_page :
  let log := [(0, 0); (100, 0); (200, 100)] in
  run_summary (run_collection utc first_page_lost 300 100 1000 None)
    = Some (Continue, 200, log) ∧
  log !! 1%nat = Some (100, 0) ∧
  100 ≠ 0.
Proof. vm_compute. split_and!; done. Qed.

(** The amended statement on the same run, at its second and third
    request. *)
Lemma offsets_follow_initial_range_witness :
  let st := final_state (run_collection utc first_page_lost 300 100 1000 None) in
  fetch_log st !! 1%nat = Some (100, 0) ∧
  fetch_log st !! 2%nat = Some (200, 100) ∧
  200 = 100 + 100 ∧
  100 = 0 + Z.of_nat (page_yield utc first_page_lost 100 100).
Proof.
  intros st.
  assert (run_collection utc first_page_lost 300 100 1000 None = Return (Continue, st))
    as Hrun by (vm_compute; reflexivity).
  assert (fetch_log st !! 1%nat = Some (100, 0)) as H1 by (vm_compute; reflexivity).
  assert (fetch_log st !! 2%nat = Some (200, 100)) as H2 by (vm_compute; reflexivity).
  split; [exact H1|]. split; [exact H2|].
  exact (proj2 (offsets_follow_initial_range utc first_page_lost 300 100 1000
                  None Continue st Hrun) 1%nat 100 0 200 100 H1 H2).
Defined.

(** With the endpoint out of reach and nothing on disk the run for 1000
    records stops after the offsets 0 to 400 and returns no record. *)
Lemma breaker_fires_at_fifth_empty_page_witness :
  ∃ st',
    run_collection utc offline 1000 100 500 None = Return (Break, st') ∧
    processed_count st' = 0 ∧
    all_sales st' = [] ∧
    collect_and_process_nft_sales utc offline 1000 100 500 None = Return [].
Proof.
  apply (proj2 (proj2 (proj2 (proj2
           (breaker_fires_at_fifth_empty_page utc offline 1000 100 500))))
         None [] [0; 100; 200; 300; 400] [500; 600; 700; 800; 900]
         (initial_state None)).
  - reflexivity.
  - reflexivity.
  - reflexivity.
  - reflexivity.
  - intros skip _. exists (JList []). split; reflexivity.
Defined.

End CollectorFacts.

(** ** The sample for the language model *)
Module SamplingFacts.
Import Python Collector Fixtures.

#[global] Instance newer_first_trans : Transitive newer_first.
Proof. unfold newer_first. intros a b c ??. lia. Qed.

#[global] Instance newer_first_total : Total newer_first.
Proof. unfold newer_first. intros a b. lia. Qed.

Lemma merge_sort_desc_Permutation df : merge_sort_desc df ≡ₚ df.
Proof. apply merge_sort_Permutation. Qed.

Lemma merge_sort_desc_Sorted df : Sorted newer_first (merge_sort_desc df).
Proof. apply (Sorted_merge_sort newer_first). Qed.

Lemma StronglySorted_lookup {A} (R : relation A) (l : list A) (i j : nat) x y :
  StronglySorted R l → l !! i = Some x → l !! j = Some y → (i < j)%nat → R x y.
Proof.
  intros Hsorted Hx Hy Hij. rewrite <- (take_drop j l) in Hsorted.
  apply (StronglySorted_app_1_elem_of _ _ _ _ _ Hsorted).
  - apply elem_of_take. eauto.
  - apply list_elem_of_lookup. exists 0%nat. rewrite lookup_drop.
    by rewrite Nat.add_0_r.
Qed.

Lemma take_rows_Return {A} (l : list A) (locs : list nat) :
  (∀ i, i ∈ locs → (i < length l)%nat) →
  ∃ rows, take_rows l locs = Return rows ∧
    Forall2 (λ i x, l !! i = Some x) locs rows.
Proof.
  induction locs as [|i locs IH]; intros Hin; simpl.
  - exists []. by split.
  - destruct (lookup_lt_is_Some_2 l i) as [x Hx]; [apply Hin; left|].
    destruct IH as (rows & -> & Hrows); [intros j Hj; apply Hin; by right|].
    rewrite Hx. simpl. exists (x :: rows). split; [done|by constructor].
Qed.

Lemma take_positions {A} (l : list A) (h : nat) :
  (h ≤ length l)%nat → Forall2 (λ i x, l !! i = Some x) (seq 0 h) (take h l).
Proof.
  intros Hh. apply Forall2_same_length_lookup_2.
  - rewrite length_seq, length_take. lia.
  - intros i p x Hp Hx. apply lookup_seq in Hp as [-> _].
    by apply lookup_take_Some in Hx as [? _].
Qed.

(** Row [i] of the sorted, numbered frame carries [transaction_index]
    [i + 1]. *)
Lemma indexed_lookup (sorted : list TradeRecord) (i : nat) row :
  zip (Z.of_nat <$> seq 1 (length sorted)) sorted !! i = Some row →
  row.1 = Z.of_nat (S i) ∧ sorted !! i = Some row.2.
Proof.
  intros H. apply lookup_zip_with_Some in H as (x & y & -> & Hx & Hy).
  apply list_lookup_fmap_Some in Hx as (k & -> & Hk).
  apply lookup_seq in Hk as [-> _]. by split.
Qed.

Lemma indexed_positions (sorted : list TradeRecord) pos rows :
  Forall2 (λ i row, zip (Z.of_nat <$> seq 1 (length sorted)) sorted !! i = Some row)
    pos rows →
  rows.*1 = (λ i : nat, Z.of_nat (S i)) <$> pos.
Proof.
  induction 1 as [|i row pos rows Hrow _ IH]; [done|].
  rewrite !fmap_cons, IH. f_equal. by apply indexed_lookup in Hrow as [? _].
Qed.

Lemma select_columns_NoDup (rows : list (Z * TradeRecord)) :
  NoDup rows.*1 → NoDup (select_columns <$> rows).
Proof.
  intros H. apply (NoDup_fmap_1 s_transaction_index).
  by rewrite <- list_fmap_compose.
Qed.

Section Sample.

Variable sort : list TradeRecord → list TradeRecord.
Variable permutation : nat → list nat.

(** What the library promises: the sort permutes the rows into descending
    timestamps, and the generator returns a permutation of the positions. *)
Hypothesis sort_Permutation : ∀ df, sort df ≡ₚ df.
Hypothesis sort_Sorted : ∀ df, Sorted newer_first (sort df).
Hypothesis permutation_Permutation : ∀ n, permutation n ≡ₚ seq 0 n.

Lemma sample_structure (df : list TradeRecord) (ss : Z) :
  0 ≤ ss < Z.of_nat (length df) →
  let h := Z.to_nat (ss / 2) in
  let k := Z.to_nat (ss - ss / 2) in
  let indexed := zip (Z.of_nat <$> seq 1 (length (sort df))) (sort df) in
  let locs := take k (permutation (length df - h)) in
  ∃ older,
    prepare_data_for_llm sort permutation df ss
      = Return (select_columns <$> (take h indexed ++ older)) ∧
    Forall2 (λ i row, drop h indexed !! i = Some row) locs older ∧
    length locs = k ∧ NoDup locs ∧ (∀ i, i ∈ locs → (i < length df - h)%nat).
Proof.
  intros Hss h k indexed locs.
  assert (0 ≤ ss / 2 ≤ ss) as Hhalf
    by (split; [apply Z.div_pos; lia | apply Z.div_le_upper_bound; lia]).
  assert (Z.of_nat h = ss / 2) as Hh by (unfold h; lia).
  assert (Z.of_nat k = ss - ss / 2) as Hk' by (unfold k; lia).
  assert (length (sort df) = length df) as Hlen
    by apply Permutation_length, sort_Permutation.
  assert (length indexed = length df) as Hilen.
  { unfold indexed. rewrite length_zip_with, length_fmap, length_seq. lia. }
  assert (length (drop h indexed) = (length df - h)%nat) as Hpool
    by (rewrite length_drop; lia).
  pose proof (permutation_Permutation (length df - h)) as Hrng.
  assert (length locs = k) as Hk.
  { unfold locs. rewrite length_take, (Permutation_length Hrng), length_seq. lia. }
  assert (NoDup locs) as Hnodup.
  { eapply sublist_NoDup; [|apply sublist_take].
    rewrite Hrng. apply NoDup_seq. }
  assert (∀ i, i ∈ locs → (i < length df - h)%nat) as Hrange.
  { intros i Hi.
    assert (i ∈ seq 0 (length df - h)) as Hseq.
    { rewrite <- Hrng. eapply elem_of_sublist; [exact Hi | apply sublist_take]. }
    apply elem_of_seq in Hseq. lia. }
  destruct (take_rows_Return (drop h indexed) locs) as (older & Htake & Hrows).
  { intros i Hi. rewrite Hpool. by apply Hrange. }
  exists older. split_and!; try done.
  unfold prepare_data_for_llm. fold indexed. cbv zeta.
  rewrite Hlen.
  destruct (ss <? Z.of_nat (length df)) eqn:Hlt; [|lia].
  rewrite Z.min_l by lia.
  unfold slice_to, slice_from, sample.
  destruct (ss / 2 <? 0) eqn:Hneg; [lia|]. fold h.
  destruct (ss - ss / 2 <? 0) eqn:Hneg'; [lia|].
  rewrite Hpool.
  destruct (Z.of_nat (length df - h) <? ss - ss / 2) eqn:Hbig;
    [apply Z.ltb_lt in Hbig; lia|].
  fold k. fold locs. rewrite Htake. done.
Qed.

(** C8: from 3000 records with [sample_size = 1000] the sample is the first
    500 rows of the frame sorted by descending timestamp (no row left out is
    more recent than any of them), followed by the 500 rows of the other
    2500 that stand at the first 500 positions of the generator's
    permutation, which are pairwise different positions: 1000 rows, no row
    twice. *)
Theorem sample_is_recent_half_plus_random_half (sales_df : list TradeRecord) :
  length sales_df = 3000%nat →
  let sorted := sort sales_df in
  let indexed := zip (Z.of_nat <$> seq 1 (length sorted)) sorted in
  let locs := take 500 (permutation 2500) in
  ∃ older : list (Z * TradeRecord),
    prepare_data_for_llm sort permutation sales_df 1000
      = Return (select_columns <$> (take 500 indexed ++ older)) ∧
    sorted ≡ₚ sales_df ∧
    (∀ a b, a ∈ take 500 indexed → b ∈ drop 500 indexed →
            timestamp b.2 ≤ timestamp a.2) ∧
    Forall2 (λ i row, drop 500 indexed !! i = Some row) locs older ∧
    NoDup locs ∧
    (∀ i, i ∈ locs → (i < 2500)%nat) ∧
    length (take 500 indexed) = 500%nat ∧
    length older = 500%nat ∧
    length (select_columns <$> (take 500 indexed ++ older)) = 1000%nat ∧
    NoDup (select_columns <$> (take 500 indexed ++ older)).
Proof.
  intros Hlen sorted indexed locs.
  assert (length sorted = 3000%nat) as Hslen.
  { unfold sorted. by rewrite (Permutation_length (sort_Permutation sales_df)). }
  assert (length indexed = 3000%nat) as Hilen.
  { unfold indexed. rewrite length_zip_with, length_fmap, length_seq. lia. }
  pose proof (sample_structure sales_df 1000) as Hs. cbv zeta in Hs.
  change (Z.to_nat (1000 / 2)) with 500%nat in Hs.
  change (Z.to_nat (1000 - 1000 / 2)) with 500%nat in Hs.
  rewrite Hlen in Hs. change (3000 - 500)%nat with 2500%nat in Hs.
  fold sorted in Hs. fold indexed in Hs. fold locs in Hs.
  destruct Hs as (older & Hrun & Hrows & Hk & Hnodup & Hrange); [lia|].
  assert (length older = 500%nat) as Holder
    by (rewrite <- (Forall2_length _ _ _ Hrows); exact Hk).
  assert (length (take 500 indexed) = 500%nat) as Hrecent
    by (rewrite length_take; lia).
  exists older. split_and!; try done.
  - apply sort_Permutation.
  - intros a b Ha Hb.
    apply elem_of_take in Ha as (i & Ha & Hi).
    apply list_elem_of_lookup in Hb as (j & Hb). rewrite lookup_drop in Hb.
    apply indexed_lookup in Ha as [_ Ha]. apply indexed_lookup in Hb as [_ Hb].
    apply (StronglySorted_lookup newer_first sorted i (500 + j) a.2 b.2);
      [|done|done|lia].
    apply Sorted_StronglySorted; [apply _ | apply sort_Sorted].
  - rewrite length_fmap, length_app. lia.
  - apply select_columns_NoDup.
    rewrite (indexed_positions sorted (seq 0 500 ++ ((λ i, 500 + i)%nat <$> locs))).
    + apply (NoDup_fmap_2 (λ i : nat, Z.of_nat (S i))).
      apply NoDup_app. split_and!.
      * apply NoDup_seq.
      * intros p Hp Hq. apply elem_of_seq in Hp.
        apply list_elem_of_fmap in Hq as (q & -> & _). lia.
      * by apply (NoDup_fmap_2 (λ i, 500 + i)%nat).
    + apply Forall2_app.
      * apply take_positions. lia.
      * apply Forall2_fmap_l. eapply Forall2_impl; [exact Hrows|].
        intros i row Hrow. cbv beta in Hrow. unfold compose.
        by rewrite lookup_drop in Hrow.
Qed.

End Sample.

(** The statement for 3000 trades one second apart, sorted by merge sort
    and sampled with the identity permutation. *)
Lemma sample_is_recent_half_plus_random_half_witness :
  ∃ rows,
    prepare_data_for_llm merge_sort_desc (seq 0) (trades 3000) 1000 = Return rows ∧
    length rows = 1000%nat ∧ NoDup rows.
Proof.
  destruct (sample_is_recent_half_plus_random_half merge_sort_desc (seq 0)
              merge_sort_desc_Permutation merge_sort_desc_Sorted
              (λ n, reflexivity (seq 0 n)) (trades 3000))
    as (older & Hrun & _ & _ & _ & _ & _ & _ & _ & Hlen & Hnodup).
  - unfold trades. by rewrite length_fmap, length_seq.
  - eexists. split_and!; [exact Hrun | exact Hlen | exact Hnodup].
Defined.

End SamplingFacts.

(** ** The transaction decoder *)
Module DecoderFacts.
Import Python Decoder DecoderFixtures.

(** C6: the three known item types get their names, every other value the
    text [UNKNOWN (<value>)] with the value in decimal; the function
    returns a string for every integer. *)
Theorem item_type_names :
  get_item_type_name 0 = "NATIVE" ∧
  get_item_type_name 1 = "ERC20" ∧
  get_item_type_name 2 = "ERC721" ∧
  ∀ item_type : Z,
    item_type ≠ 0 → item_type ≠ 1 → item_type ≠ 2 →
    get_item_type_name item_type = "UNKNOWN (" +:+ str item_type +:+ ")".
Proof.
  split_and!; try reflexivity.
  intros item_type H0 H1 H2. unfold get_item_type_name, item_types.
  by rewrite !lookup_insert_ne, lookup_empty by done.
Qed.

(** The ERC1155 value 3 is outside the table. *)
Lemma item_type_names_witness :
  get_item_type_name 3 = "UNKNOWN (3)" ∧ get_item_type_name (- 1) = "UNKNOWN (-1)".
Proof.
  split.
  - apply (proj2 (proj2 (proj2 item_type_names)) 3); lia.
  - apply (proj2 (proj2 (proj2 item_type_names)) (- 1)); lia.
Defined.

Section Lookup.

Variable requests_get : string → result Response.

Lemma NFT_COLLECTIONS_lookup address : NFT_COLLECTIONS !! address = None.
Proof. apply lookup_empty. Qed.

(** C9: what [get_collection_name] does with the Etherscan request.  When
    the request and the decoding of its body succeed the address comes back
    unchanged; when the request raises, or the body is no JSON, that
    exception leaves the function: there is no handler around the
    lookup. *)
Theorem get_collection_name_outcomes (token_address : string) :
  (∀ response data,
     (∀ url, requests_get url = Return response) →
     response_json response = Return data →
     get_collection_name requests_get token_address = Return token_address) ∧
  (∀ e,
     (∀ url, requests_get url = Raise e) →
     get_collection_name requests_get token_address = Raise e) ∧
  (∀ response e,
     (∀ url, requests_get url = Return response) →
     response_json response = Raise e →
     get_collection_name requests_get token_address = Raise e).
Proof.
  unfold get_collection_name. rewrite NFT_COLLECTIONS_lookup. cbv zeta.
  split_and!.
  - intros response data Hget Hjson. rewrite Hget. simpl. by rewrite Hjson.
  - intros e Hget. by rewrite Hget.
  - intros response e Hget Hjson. rewrite Hget. simpl. by rewrite Hjson.
Qed.

End Lookup.

(** With Etherscan out of reach the lookup of the Bored Ape contract raises
    instead of returning the address. *)
Lemma get_collection_name_outcomes_witness :
  get_collection_name etherscan_down "0xBC4CA0EdA7647A8aB7C2061c2E118A18a936f13D"
    = Raise RequestException.
Proof.
  apply (proj1 (proj2 (get_collection_name_outcomes etherscan_down
                         "0xBC4CA0EdA7647A8aB7C2061c2E118A18a936f13D"))).
  intros url. reflexivity.
Defined.

Lemma index_0 {A} (l : list A) :
  index l 0 = match l with [] => Raise IndexError | x :: _ => Return x end.
Proof. by destruct l. Qed.

Lemma units_ether : units !! lower "ether" = Some 18.
Proof. reflexivity. Qed.

Lemma from_wei_ether amount n :
  from_wei amount "ether" = Return n → n = ether_value amount.
Proof.
  unfold from_wei, ether_value. rewrite units_ether.
  destruct (amount =? 0); [by intros [= <-]|].
  destruct (_ || _); [done | by intros [= <-]].
Qed.

Lemma from_wei_ether_in_range amount :
  0 ≤ amount ≤ MAX_WEI → from_wei amount "ether" = Return (ether_value amount).
Proof.
  intros Hrange. unfold from_wei, ether_value. rewrite units_ether.
  destruct (amount =? 0); [done|].
  destruct (amount <? 0) eqn:H1; [lia|]. destruct (MAX_WEI <? amount) eqn:H2; [lia|done].
Qed.

Lemma in_currency_types (item : ReceivedItem) :
  bool_decide (itemType item ∈ [0; 1]) = is_currency item.
Proof.
  unfold is_currency.
  destruct (itemType item =? 0) eqn:H0; [apply Z.eqb_eq in H0|apply Z.eqb_neq in H0].
  - rewrite H0. by apply bool_decide_eq_true_2; left.
  - destruct (itemType item =? 1) eqn:H1; [apply Z.eqb_eq in H1|apply Z.eqb_neq in H1].
    + rewrite H1. apply bool_decide_eq_true_2. right; left.
    + apply bool_decide_eq_false_2. intros Hin.
      apply elem_of_cons in Hin as [?|Hin]; [done|].
      apply elem_of_cons in Hin as [?|Hin]; [done|]. by apply elem_of_nil in Hin.
Qed.

Section Decode.

Variable utcoffset : Z → Z.
Variable requests_get : string → result Response.
Variable get_transaction : string → result Transaction.
Variable get_transaction_receipt : string → result Receipt.
Variable get_block : Z → result Block.
Variable seaport_address : string.
Variable process_log : Log → result OrderFulfilled.
Context {float64 : Type}.
Variable float : number → float64.
Variable float_add : float64 → float64 → float64.

Abbreviation decode :=
  (decode_transaction utcoffset requests_get get_transaction get_transaction_receipt
     get_block seaport_address process_log float float_add).
Abbreviation scan := (scan_logs seaport_address process_log).
Abbreviation add_item :=
  (λ (total : price float64) (item : ReceivedItem),
     price_add float float_add total (float (ether_value (amount item)))).

Lemma scan_logs_foreign logs events :
  Forall (λ log, lower (address log) ≠ lower seaport_address) logs →
  scan logs events = events.
Proof.
  induction 1 as [|log logs Hlog _ IH]; simpl; [done|].
  destruct (String.eqb _ _) eqn:Heq; [|done].
  by apply String.eqb_eq in Heq.
Qed.

(** The running total of the payment loop. *)
Lemma payment_loop_total items infos total r :
  payment_loop float float_add items infos total = Return r →
  r.2 = fold_left add_item (List.filter is_currency items) total.
Proof.
  revert infos total. induction items as [|item items IH]; intros infos total; simpl.
  - by intros [= <-].
  - rewrite in_currency_types. destruct (is_currency item); simpl; [|apply IH].
    destruct (from_wei (amount item) "ether") as [wei|e] eqn:Hwei; simpl; [|done].
    apply from_wei_ether in Hwei as ->. apply IH.
Qed.

Lemma payment_loop_returns items infos total :
  Forall (λ item, 0 ≤ amount item ≤ MAX_WEI) items →
  ∃ infos', payment_loop float float_add items infos total
    = Return (infos', fold_left add_item (List.filter is_currency items) total).
Proof.
  intros Hrange. revert infos total.
  induction Hrange as [|item items Hitem _ IH]; intros infos total; simpl.
  - by eexists.
  - rewrite in_currency_types. destruct (is_currency item); simpl; [|apply IH].
    rewrite (from_wei_ether_in_range _ Hitem). simpl. apply IH.
Qed.

Lemma fold_add_item_recipient r items total :
  fold_left add_item (List.filter is_currency (with_recipient r <$> items)) total =
  fold_left add_item (List.filter is_currency items) total.
Proof.
  revert total. induction items as [|item items IH]; intros total; [done|].
  rewrite fmap_cons. cbn [List.filter].
  change (is_currency (with_recipient r item)) with (is_currency item).
  destruct (is_currency item); [|apply IH].
  cbn [fold_left]. apply IH.
Qed.

(** C1: what [decode_transaction] does with a receipt that holds no log of
    the Seaport contract.  The list of events stays empty and taking its
    first element fails: no dictionary is returned, and when the lookups
    before it succeed the call raises [IndexError].  A dictionary that is
    returned always has [has_order_fulfilled = True]. *)
Theorem decode_transaction_without_seaport_log (tx_hash : string) (receipt : Receipt) :
  get_transaction_receipt tx_hash = Return receipt →
  Forall (λ log, lower (address log) ≠ lower seaport_address) (logs receipt) →
  (∀ info, decode tx_hash ≠ Return info) ∧
  (∀ tx block date_time gas_price tx_fee_eth,
     get_transaction tx_hash = Return tx →
     get_block (blockNumber receipt) = Return block →
     fromtimestamp utcoffset (timestamp block) = Return date_time →
     from_wei (gasPrice tx) "gwei" = Return gas_price →
     from_wei (gasPrice tx * gasUsed receipt) "ether" = Return tx_fee_eth →
     decode tx_hash = Raise IndexError) ∧
  (∀ other_hash info,
     decode other_hash = Return info → has_order_fulfilled info = true).
Proof.
  intros Hreceipt Hforeign. split_and!.
  - intros info. unfold decode_transaction. rewrite Hreceipt.
    destruct (get_transaction tx_hash) as [tx|]; simpl; [|done].
    destruct (get_block _) as [block|]; simpl; [|done].
    destruct (fromtimestamp _ _) as [dt|]; simpl; [|done].
    destruct (from_wei _ "gwei") as [gp|]; simpl; [|done].
    destruct (from_wei _ "ether") as [fee|]; simpl; [|done].
    by rewrite scan_logs_foreign.
  - intros tx block dt gp fee Htx Hblock Hdt Hgp Hfee.
    unfold decode_transaction.
    rewrite Htx, Hreceipt. simpl. rewrite Hblock. simpl. rewrite Hdt. simpl.
    rewrite Hgp. simpl. rewrite Hfee. simpl.
    by rewrite scan_logs_foreign.
  - intros other_hash info. unfold decode_transaction.
    destruct (get_transaction other_hash) as [tx|]; simpl; [|done].
    destruct (get_transaction_receipt other_hash) as [rc|]; simpl; [|done].
    destruct (get_block _) as [block|]; simpl; [|done].
    destruct (fromtimestamp _ _) as [dt|]; simpl; [|done].
    destruct (from_wei _ "gwei") as [gp|]; simpl; [|done].
    destruct (from_wei _ "ether") as [fee|]; simpl; [|done].
    destruct (index _ 0) as [event_data|]; simpl; [|done].
    destruct (offer_loop _ _ _) as [items|]; simpl; [|done].
    destruct (payment_loop _ _ _ _ _) as [paid|]; simpl; [|done].
    by intros [= <-].
Qed.

(** C7: [total_price_eth] of a decoded transaction is the sum, taken in the
    order of the items, of the converted amounts of the consideration items
    of type 0 or 1 of the first Seaport event; the conversion is the exact
    [amount / 10^18] handed to [float].  The loop returns that sum whenever
    the amounts are 256-bit values; an item of another type adds nothing
    and the recipients play no part. *)
Theorem total_price_is_sum_of_currency_items :
  (∀ tx_hash info,
     decode tx_hash = Return info →
     ∃ receipt event_data rest,
       get_transaction_receipt tx_hash = Return receipt ∧
       scan (logs receipt) [] = event_data :: rest ∧
       total_price_eth info = eth_sum float float_add (consideration event_data)) ∧
  (∀ items,
     Forall (λ item, 0 ≤ amount item ≤ MAX_WEI) items →
     ∃ infos, payment_loop float float_add items [] (PInt 0)
       = Return (infos, eth_sum float float_add items)) ∧
  (∀ amount, (number_to_Q (ether_value amount) * inject_Z (10 ^ 18) == inject_Z amount)%Q) ∧
  (∀ before item after,
     is_currency item = false →
     eth_sum float float_add (before ++ item :: after)
       = eth_sum float float_add (before ++ after)) ∧
  (∀ r items,
     eth_sum float float_add (with_recipient r <$> items) = eth_sum float float_add items).
Proof.
  split_and!.
  - intros tx_hash info. unfold decode_transaction.
    destruct (get_transaction tx_hash) as [tx|]; simpl; [|done].
    destruct (get_transaction_receipt tx_hash) as [receipt|]; simpl; [|done].
    destruct (get_block _) as [block|]; simpl; [|done].
    destruct (fromtimestamp _ _) as [dt|]; simpl; [|done].
    destruct (from_wei _ "gwei") as [gp|]; simpl; [|done].
    destruct (from_wei _ "ether") as [fee|]; simpl; [|done].
    rewrite index_0.
    destruct (scan (logs receipt) []) as [|event_data rest] eqn:Hscan; simpl; [done|].
    destruct (offer_loop _ _ _) as [items|]; simpl; [|done].
    destruct (payment_loop _ _ _ _ _) as [paid|] eqn:Hpaid; simpl; [|done].
    intros [= <-]. simpl. exists receipt, event_data, rest.
    split_and!; [done | done |]. by apply payment_loop_total in Hpaid.
  - intros items Hrange. by apply payment_loop_returns.
  - intros amount. unfold ether_value.
    destruct (amount =? 0) eqn:H0.
    + apply Z.eqb_eq in H0 as ->. reflexivity.
    + unfold number_to_Q. cbn [exponent coefficient].
      unfold Qeq. simpl. lia.
  - intros before item after Hitem. unfold eth_sum.
    rewrite !List.filter_app. cbn [List.filter]. by rewrite Hitem.
  - intros r items. unfold eth_sum. apply fold_add_item_recipient.
Qed.

End Decode.

(** A plain transfer, whose receipt has no log at all, makes the decoder
    raise. *)
Lemma decode_transaction_without_seaport_log_witness :
  decode_transaction utc_zone etherscan_down chain_transaction chain_receipt chain_block
    seaport chain_process_log exact_float exact_add transfer_hash
  = Raise IndexError.
Proof.
  pose (receipt := {| blockNumber := 17000000; gasUsed := 21000; logs := [] |}).
  pose (tx := {| tx_from := "0xBuyer"; tx_to := Some seaport; gasPrice := 20000000000 |}).
  pose (block := {| timestamp := 1700000000 |}).
  eapply (proj1 (proj2 (decode_transaction_without_seaport_log utc_zone etherscan_down
            chain_transaction chain_receipt chain_block seaport chain_process_log
            exact_float exact_add transfer_hash receipt eq_refl (Forall_nil_2 _)))
          tx block);
    reflexivity.
Defined.

(** The sale of the fixture: 0.9 to the seller and 0.05 in fees add up to
    19/20, the NFT item in between is passed over. *)
Lemma total_price_is_sum_of_currency_items_witness :
  ∃ infos,
    payment_loop exact_float exact_add (consideration sale_event) [] (PInt 0)
      = Return (infos, eth_sum exact_float exact_add (consideration sale_event)) ∧
    eth_sum exact_float exact_add (consideration sale_event) = PFloat (19 # 20)%Q.
Proof.
  destruct (proj1 (proj2 (total_price_is_sum_of_currency_items utc_zone etherscan_down
              chain_transaction chain_receipt chain_block seaport chain_process_log
              exact_float exact_add)) (consideration sale_event)) as [infos Hloop].
  - repeat constructor; vm_compute; discriminate.
  - exists infos. split; [exact Hloop | reflexivity].
Defined.

End DecoderFacts.

(** ** More on the record normalizer *)
Module NormalizerExtras.
Import Python Collector Fixtures ExtraFixtures NormalizerFacts.

Lemma weekday_range dt : 0 ≤ weekday dt ≤ 6.
Proof. unfold weekday. pose proof (Z.mod_pos_bound (days_from_civil (year dt) (month dt) (day dt) + 3) 7). lia. Qed.

Lemma weekday_names_lookup w :
  0 ≤ w ≤ 6 → ∃ name, index weekday_names w = Return name ∧ weekday_names !! Z.to_nat w = Some name.
Proof.
  intros Hw.
  assert (w = 0 ∨ w = 1 ∨ w = 2 ∨ w = 3 ∨ w = 4 ∨ w = 5 ∨ w = 6) as Hcases by lia.
  destruct Hcases as [->|[->|[->|[->|[->|[->| ->]]]]]]; eexists; split; reflexivity.
Qed.

(** The body on a dictionary, step by step. *)
Lemma parse_sale_data_body_inv tz sale r :
  parse_sale_data_body tz sale = Return r →
  ∃ m dt,
    sale = JObj m ∧
    int (default (JStr "0") (m !! "blockTimestamp")) = Return (timestamp r) ∧
    int (default (JStr "0") (m !! "blockNumber")) = Return (block_number r) ∧
    fromtimestamp tz (timestamp r) = Return dt ∧
    day_of_week r = weekday dt ∧
    index weekday_names (weekday dt) = Return (day_name r) ∧
    hour r = Python.hour dt ∧
    date r = strftime_date dt ∧
    time r = strftime_time dt ∧
    is_weekend r = (5 <=? weekday dt) ∧
    transaction_hash r = default (JStr "") (m !! "transactionHash") ∧
    order_hash r = default (JStr "") (m !! "orderHash") ∧
    seller r = default (JStr "") (m !! "offerer") ∧
    buyer r = default (JStr "") (m !! "recipient") ∧
    zone r = default (JStr "") (m !! "zone").
Proof.
  unfold parse_sale_data_body.
  destruct sale as [| | | | | |m]; try done. simpl.
  destruct (int (default _ (m !! "blockTimestamp"))) as [ts|] eqn:Hts; simpl; [|done].
  destruct (int (default _ (m !! "blockNumber"))) as [bn|] eqn:Hbn; simpl; [|done].
  destruct (fromtimestamp tz ts) as [dt|] eqn:Hdt; simpl; [|done].
  destruct (index weekday_names (weekday dt)) as [name|] eqn:Hname; simpl; [|done].
  intros [= <-]. exists m, dt. simpl. by split_and!.
Qed.

Lemma fromtimestamp_hour tz ts dt :
  fromtimestamp tz ts = Return dt → 0 ≤ Python.hour dt ≤ 23.
Proof.
  unfold fromtimestamp. destruct (_ || _); [done|].
  destruct (civil_from_days _) as [[y m] d]. destruct (_ || _); [done|].
  intros [= <-]. simpl.
  pose proof (Z.mod_pos_bound (ts + tz ts) 86400).
  split; [apply Z.div_pos; lia | ].
  assert ((ts + tz ts) mod 86400 / 3600 < 24); [|lia].
  apply Z.div_lt_upper_bound; lia.
Qed.

(** X1: the derived fields of every record that [parse_sale_data] returns
    agree with each other: the weekday index lies between 0 and 6 and names
    its day in the table that starts at Monday, the weekend flag is set
    exactly on the indices 5 and 6, and the hour lies between 0 and 23. *)
Theorem derived_fields_consistent (utcoffset : Z → Z) (sale : json) (r : TradeRecord) :
  parse_sale_data utcoffset sale = Return (Some r) →
  0 ≤ day_of_week r ≤ 6 ∧
  weekday_names !! Z.to_nat (day_of_week r) = Some (day_name r) ∧
  (is_weekend r = true ↔ day_of_week r = 5 ∨ day_of_week r = 6) ∧
  0 ≤ hour r ≤ 23.
Proof.
  intros Hparse.
  destruct (parse_sale_data_cases utcoffset sale) as [[H _]|(r' & H & Hbody)];
    [congruence|].
  assert (r' = r) as -> by congruence.
  apply parse_sale_data_body_inv in Hbody
    as (m & dt & _ & _ & _ & Hdt & Hw & Hname & Hhour & _ & _ & Hwe & _).
  pose proof (weekday_range dt) as Hrange.
  destruct (weekday_names_lookup (weekday dt) Hrange) as (name & Hidx & Hlook).
  rewrite Hw, Hwe, Hhour. split_and!; try lia.
  - congruence.
  - apply fromtimestamp_hour in Hdt. lia.
  - apply fromtimestamp_hour in Hdt. lia.
Qed.

Lemma derived_fields_consistent_witness :
  0 ≤ day_of_week sample_record ≤ 6 ∧
  weekday_names !! Z.to_nat (day_of_week sample_record) = Some (day_name sample_record) ∧
  (is_weekend sample_record = true ↔
     day_of_week sample_record = 5 ∨ day_of_week sample_record = 6) ∧
  0 ≤ hour sample_record ≤ 23.
Proof.
  apply (derived_fields_consistent utc (JObj raw_example) sample_record).
  reflexivity.
Defined.

Lemma parse_sale_data_None_cases (utcoffset : Z → Z) (sale : json) :
  parse_sale_data utcoffset sale = Return None ↔
  match sale with
  | JObj m =>
      raises (int (default (JStr "0") (m !! "blockTimestamp"))) ∨
      raises (int (default (JStr "0") (m !! "blockNumber"))) ∨
      ∃ ts, int (default (JStr "0") (m !! "blockTimestamp")) = Return ts ∧
            raises (fromtimestamp utcoffset ts)
  | _ => True
  end.
Proof.
  rewrite parse_sale_data_None_iff. unfold raises.
  destruct sale as [| | | | | |m]; try (split; [done | intros _; by eexists]).
  unfold parse_sale_data_body. simpl.
  destruct (int (default _ (m !! "blockTimestamp"))) as [ts|e1]; simpl.
  - destruct (int (default _ (m !! "blockNumber"))) as [bn|e2]; simpl.
    + destruct (fromtimestamp utcoffset ts) as [dt|e3] eqn:Hdt; simpl.
      * destruct (weekday_names_lookup (weekday dt) (weekday_range dt)) as (name & -> & _).
        simpl. split; [by intros [e ?]|].
        intros [[e ?]|[[e ?]|(ts' & [= <-] & [e He])]]; [done|done|congruence].
      * split; [|by eexists]. intros _. right; right. exists ts. split; [done|by eexists].
    + split; [|by eexists]. intros _. right; left. by eexists.
  - split; [|by eexists]. intros _. left. by eexists.
Qed.

(** X2: which records are dropped.  [parse_sale_data] returns [None]
    exactly for a raw record that is no dictionary, or whose
    [blockTimestamp] or [blockNumber] (["0"] when absent) does not convert
    with [int], or whose timestamp has no local [datetime]; every other
    record is kept. *)
Theorem dropped_records_characterized (utcoffset : Z → Z) (sale : json) :
  parse_sale_data utcoffset sale = Return None ↔
  match sale with
  | JObj m =>
      raises (int (default (JStr "0") (m !! "blockTimestamp"))) ∨
      raises (int (default (JStr "0") (m !! "blockNumber"))) ∨
      ∃ ts, int (default (JStr "0") (m !! "blockTimestamp")) = Return ts ∧
            raises (fromtimestamp utcoffset ts)
  | _ => True
  end.
Proof. apply parse_sale_data_None_cases. Qed.

Lemma days_from_civil_from_days days :
  let '(y, m, d) := civil_from_days days in days_from_civil y m d = days.
Proof.
  unfold civil_from_days, days_from_civil. cbv zeta.
  set (z := days + 719468).
  set (era := z / 146097).
  set (doe := z - era * 146097).
  assert (0 ≤ doe < 146097) as Hdoe.
  { unfold doe, era. pose proof (Z.mod_pos_bound z 146097).
    pose proof (Z.div_mod z 146097). lia. }
  assert (z = era * 146097 + doe) as Hz by (unfold doe; lia).
  clearbody doe era.
  set (yoe := (doe - doe / 1460 + doe / 36524 - doe / 146096) / 365).
  assert (0 ≤ yoe ≤ 399) as Hyoe
    by (unfold yoe; Z.to_euclidean_division_equations; lia).
  set (doy := doe - (365 * yoe + yoe / 4 - yoe / 100)).
  assert (0 ≤ doy ≤ 365) as Hdoy
    by (unfold doy, yoe; Z.to_euclidean_division_equations; lia).
  set (mp := (5 * doy + 2) / 153).
  assert (0 ≤ mp ≤ 11) as Hmp
    by (unfold mp; Z.to_euclidean_division_equations; lia).
  repeat case_match.
  all: unfold mp, doy, yoe in *; Z.to_euclidean_division_equations; lia.
Qed.

Lemma fromtimestamp_weekday tz ts dt :
  fromtimestamp tz ts = Return dt →
  weekday dt = ((ts + tz ts) / 86400 + 3) mod 7.
Proof.
  unfold fromtimestamp. destruct (_ || _); [done|].
  pose proof (days_from_civil_from_days ((ts + tz ts) / 86400)) as Hround.
  destruct (civil_from_days _) as [[y m] d]. destruct (_ || _); [done|].
  intros [= <-]. unfold weekday. simpl. by rewrite Hround.
Qed.

(** X3: the weekday of a record follows from its timestamp alone: it is
    the number of the local day, counted from 1970-01-01, plus 3 (that day
    was a Thursday), modulo 7. *)
Theorem day_of_week_from_timestamp (utcoffset : Z → Z) (sale : json) (r : TradeRecord) :
  parse_sale_data utcoffset sale = Return (Some r) →
  day_of_week r = ((timestamp r + utcoffset (timestamp r)) / 86400 + 3) mod 7.
Proof.
  intros Hparse.
  destruct (parse_sale_data_cases utcoffset sale) as [[H _]|(r' & H & Hbody)];
    [congruence|].
  assert (r' = r) as -> by congruence.
  apply parse_sale_data_body_inv in Hbody
    as (m & dt & _ & _ & _ & Hdt & Hw & _).
  rewrite Hw. by apply fromtimestamp_weekday.
Qed.

Lemma day_of_week_from_timestamp_witness :
  day_of_week sample_record
    = ((timestamp sample_record + utc (timestamp sample_record)) / 86400 + 3) mod 7.
Proof.
  apply (day_of_week_from_timestamp utc (JObj raw_example) sample_record).
  reflexivity.
Defined.

(** X4: a record without [blockTimestamp] is not dropped: the timestamp
    defaults to 0, so on a machine less than a day away from UTC the record
    is dated at the epoch. *)
Theorem missing_timestamp_is_epoch (utcoffset : Z → Z) (m : gmap string json) (bn : Z) :
  m !! "blockTimestamp" = None →
  int (default (JStr "0") (m !! "blockNumber")) = Return bn →
  - 86400 < utcoffset 0 < 86400 →
  ∃ r, parse_sale_data utcoffset (JObj m) = Return (Some r) ∧
    timestamp r = 0 ∧ block_number r = bn ∧
    (date r = "1970-01-01" ∨ date r = "1969-12-31").
Proof.
  intros Hts Hbn Hzone.
  assert (∃ dt, fromtimestamp utcoffset 0 = Return dt ∧
            (strftime_date dt = "1970-01-01" ∨ strftime_date dt = "1969-12-31"))
    as (dt & Hdt & Hdate).
  { unfold fromtimestamp. simpl (_ || _). cbv iota. rewrite Z.add_0_l.
    assert (utcoffset 0 / 86400 = 0 ∨ utcoffset 0 / 86400 = - 1) as [Hd|Hd].
    { destruct (Z_lt_le_dec (utcoffset 0) 0).
      - right. symmetry. apply Z.div_unique with (r := utcoffset 0 + 86400); lia.
      - left. apply Z.div_small. lia. }
    - rewrite Hd. simpl. eexists. split; [done|]. by left.
    - rewrite Hd. simpl. eexists. split; [done|]. by right. }
  destruct (parse_sale_data_cases utcoffset (JObj m)) as [[Hnone _]|(r & Hsome & Hbody)].
  - apply parse_sale_data_None_cases in Hnone. rewrite Hts in Hnone. simpl in Hnone.
    destruct Hnone as [[e He]|[[e He]|(ts & Hts' & [e He])]]; [done|congruence|].
    vm_compute in Hts'. injection Hts' as <-. congruence.
  - exists r. split; [done|].
    apply parse_sale_data_body_inv in Hbody
      as (m' & dt' & [= <-] & Hts' & Hbn' & Hdt' & _ & _ & _ & Hd & _).
    rewrite Hts in Hts'. rewrite Hbn in Hbn'.
    change (int (default (JStr "0") None)) with (Return (A:=Z) 0) in Hts'.
    injection Hts' as Hts'. injection Hbn' as Hbn'. rewrite <- Hts' in Hdt'.
    split_and!; [done|done|]. rewrite Hd. congruence.
Qed.

Lemma missing_timestamp_is_epoch_witness :
  ∃ r, parse_sale_data utc (JObj (delete "blockTimestamp" raw_example)) = Return (Some r) ∧
    timestamp r = 0 ∧ block_number r = 100 ∧
    (date r = "1970-01-01" ∨ date r = "1969-12-31").
Proof.
  apply (missing_timestamp_is_epoch utc (delete "blockTimestamp" raw_example) 100).
  - reflexivity.
  - reflexivity.
  - unfold utc. lia.
Defined.

End NormalizerExtras.

(** ** More on the page fetcher and the collection loop *)
Module CollectorExtras.
Import Python Collector Fixtures ExtraFixtures NormalizerFacts CollectorFacts.

Section Fetch.

Variable requests_post : Z → Z → result Response.

Abbreviation fetch := (fetch_nft_sales requests_post).

(** X5: every failure of a page request that [except Exception] can catch
    ends as the empty list: a request that raises, a status other than 200,
    a body that is no JSON, an answer that is no dictionary or that carries
    an [errors] key.  Only an exception outside [Exception] leaves the
    fetcher. *)
Theorem fetch_failures_give_empty_page (first skip : Z) :
  (∀ e, requests_post first skip = Raise e →
        fetch first skip = if is_Exception e then Return (JList []) else Raise e) ∧
  (∀ response, requests_post first skip = Return response →
     status_code response ≠ 200 → fetch first skip = Return (JList [])) ∧
  (∀ response e, requests_post first skip = Return response →
     status_code response = 200 → response_json response = Raise e →
     fetch first skip = if is_Exception e then Return (JList []) else Raise e) ∧
  (∀ response data, requests_post first skip = Return response →
     status_code response = 200 → response_json response = Return data →
     (∀ m, data = JObj m → is_Some (m !! "errors")) →
     fetch first skip = Return (JList [])).
Proof.
  unfold fetch_nft_sales. split_and!.
  - intros e ->. simpl. by destruct (is_Exception e).
  - intros response -> Hstatus. simpl.
    destruct (status_code response =? 200) eqn:H200; [lia|done].
  - intros response e -> Hstatus Hjson. simpl. rewrite Hstatus, Hjson. simpl.
    by destruct (is_Exception e).
  - intros response data -> Hstatus Hjson Hdata. simpl. rewrite Hstatus, Hjson. simpl.
    destruct data as [|b|z|f|t|l|m]; simpl; try done.
    + by destruct (String.index 0 "errors" t).
    + by destruct (existsb _ l).
    + rewrite bool_decide_eq_true_2; [done|]. by apply Hdata.
Qed.

(** X6: a non-empty page can only come from a well-formed answer: status
    200, a JSON dictionary without an [errors] key whose [data] entry is a
    dictionary, and the page is its [orderFulfilleds] entry. *)
Theorem nonempty_page_is_well_formed (first skip : Z) (batch : json) :
  fetch first skip = Return batch → truthy batch = true →
  ∃ response m inner,
    requests_post first skip = Return response ∧
    status_code response = 200 ∧
    response_json response = Return (JObj m) ∧
    m !! "errors" = None ∧
    m !! "data" = Some (JObj inner) ∧
    inner !! "orderFulfilleds" = Some batch.
Proof.
  unfold fetch_nft_sales.
  destruct (requests_post first skip) as [response|e] eqn:Hpost; simpl;
    [|destruct (is_Exception e); [by intros [= <-]|done]].
  destruct (status_code response =? 200) eqn:H200; simpl; [|by intros [= <-]].
  apply Z.eqb_eq in H200.
  destruct (response_json response) as [data|e] eqn:Hjson; simpl;
    [|destruct (is_Exception e); [by intros [= <-]|done]].
  destruct data as [|b|z|f|t|l|m]; simpl; try by intros [= <-].
  - destruct (String.index 0 "errors" t); simpl; by intros [= <-].
  - destruct (existsb _ l); simpl; by intros [= <-].
  - destruct (m !! "errors") as [v|] eqn:Herr.
    { rewrite bool_decide_eq_true_2 by eauto. by intros [= <-]. }
    rewrite bool_decide_eq_false_2 by (by intros [? ?]).
    destruct (m !! "data") as [inner|] eqn:Hdata; simpl;
      [|rewrite lookup_empty; simpl; by intros [= <-]].
    destruct inner as [| | | | | |inner]; simpl; try by intros [= <-].
    destruct (inner !! "orderFulfilleds") as [page|] eqn:Hpage; simpl;
      [|by intros [= <-]].
    intros [= <-] Htruthy. exists response, m, inner. by split_and!.
Qed.

End Fetch.

Lemma fetch_failures_give_empty_page_witness :
  fetch_nft_sales offline 100 0 = Return (JList []) ∧
  fetch_nft_sales interrupted 100 0 = Raise KeyboardInterrupt.
Proof.
  split.
  - apply (proj1 (fetch_failures_give_empty_page offline 100 0) RequestException).
    reflexivity.
  - apply (proj1 (fetch_failures_give_empty_page interrupted 100 0) KeyboardInterrupt).
    reflexivity.
Defined.

Lemma nonempty_page_is_well_formed_witness :
  ∃ response m inner,
    full_pages 1 0 = Return response ∧
    status_code response = 200 ∧
    response_json response = Return (JObj m) ∧
    m !! "errors" = None ∧
    m !! "data" = Some (JObj inner) ∧
    inner !! "orderFulfilleds" = Some (JList [JObj raw_example]).
Proof.
  apply (nonempty_page_is_well_formed full_pages 1 0 (JList [JObj raw_example]));
    reflexivity.
Defined.

Section Loop.

Variable utcoffset : Z → Z.
Variable requests_post : Z → Z → result Response.
Variables total_records batch_size save_interval : Z.

Abbreviation body := (loop_body utcoffset requests_post total_records batch_size save_interval).
Abbreviation loop := (for_loop utcoffset requests_post total_records batch_size save_interval).
Abbreviation run :=
  (run_collection utcoffset requests_post total_records batch_size save_interval).
Abbreviation collect :=
  (collect_and_process_nft_sales utcoffset requests_post total_records batch_size
     save_interval).
Abbreviation rows_at := (page_rows utcoffset requests_post batch_size).

(** What one iteration does to the records, the count and the file. *)
Lemma loop_body_effect skip st f st' :
  body skip st = Return (f, st') →
  all_sales st' = all_sales st ++ rows_at skip ∧
  processed_count st' = processed_count st + Z.of_nat (length (rows_at skip)) ∧
  (fetch_log st').*1 = (fetch_log st).*1 ++ [skip] ∧
  ((processed_count st' = processed_count st ∧ temp_file st' = temp_file st) ∨
   (save_interval = 0 ∧ temp_file st' = temp_file st) ∨
   (save_interval ≠ 0 ∧
    temp_file st' =
      if (processed_count st' mod save_interval =? 0)
         || (total_records <=? processed_count st')
      then Some (all_sales st') else temp_file st)).
Proof.
  unfold loop_body, page_rows.
  destruct (fetch_nft_sales requests_post batch_size skip) as [batch|e]; simpl; [|done].
  destruct (truthy batch); simpl.
  - unfold page_records.
    pose proof (iter_only_Exception batch) as Hiter.
    destruct (iter batch) as [sales|e]; simpl in *.
    + rewrite process_batch_kept. simpl.
      unfold mod_. destruct (save_interval =? 0) eqn:H0; simpl.
      * intros [= <- <-]. simpl. split_and!; [done|lia|by rewrite fmap_app|].
        right; left. split; [lia|done].
      * destruct (_ || _) eqn:Hcond; intros [= <- <-]; simpl;
          (split_and!; [done|lia|by rewrite fmap_app|]); right; right; (split; [lia|]);
          replace (processed_count st + Z.of_nat (length (kept utcoffset sales)))
            with (processed_count st + (0 + Z.of_nat (length (kept utcoffset sales))))
            by lia; by rewrite Hcond.
    + unfold except_batch. rewrite Hiter. intros [= <- <-]. simpl.
      rewrite app_nil_r. split_and!; [done|lia|by rewrite fmap_app|]. left. split; [lia|done].
  - destruct (max_errors <=? _); intros [= <- <-]; simpl; rewrite app_nil_r;
      (split_and!; [done|lia|by rewrite fmap_app|]); left; (split; [lia|done]).
Qed.

(** The records and the file over a whole loop. *)
Lemma for_loop_effect skips st f st' :
  loop skips st = Return (f, st') →
  ∃ n : nat, (n ≤ length skips)%nat ∧
    (f = Continue → n = length skips) ∧
    all_sales st' = all_sales st ++ mjoin (rows_at <$> take n skips) ∧
    (fetch_log st').*1 = (fetch_log st).*1 ++ take n skips ∧
    processed_count st' - Z.of_nat (length (all_sales st'))
      = processed_count st - Z.of_nat (length (all_sales st)) ∧
    (temp_file st' = temp_file st ∨
     ∃ l, temp_file st' = Some l ∧ l `prefix_of` all_sales st') ∧
    (save_interval = 0 → temp_file st' = temp_file st).
Proof.
  revert st. induction skips as [|skip skips IH]; intros st; simpl.
  - intros [= <- <-]. exists 0%nat. simpl. rewrite !app_nil_r.
    split_and!; [lia|done|done|done|lia|by left|done].
  - destruct (body skip st) as [[f1 st1]|e] eqn:Hbody; simpl; [|done].
    apply loop_body_effect in Hbody as (Hrows & Hpc & Hlog & Hfile).
    assert (temp_file st1 = temp_file st ∨ temp_file st1 = Some (all_sales st1)) as Hfile1.
    { destruct Hfile as [[_ ?]|[[_ ?]|[_ ->]]]; [by left|by left|].
      destruct (_ || _); [by right|by left]. }
    assert (save_interval = 0 → temp_file st1 = temp_file st) as Hfile0.
    { intros H0. destruct Hfile as [[_ ?]|[[_ ?]|[? _]]]; done. }
    assert (processed_count st1 - Z.of_nat (length (all_sales st1))
              = processed_count st - Z.of_nat (length (all_sales st))) as Hdiff.
    { rewrite Hrows, Hpc, length_app. lia. }
    destruct f1.
    + intros Hrest. apply IH in Hrest as (n & Hn & Hf & Hall & Hlogs & Hcount & Hpre & H0).
      exists (S n). simpl. split_and!.
      * lia.
      * intros Hc. by rewrite (Hf Hc).
      * by rewrite Hall, Hrows, <- app_assoc.
      * by rewrite Hlogs, Hlog, <- app_assoc.
      * lia.
      * destruct Hpre as [Hsame|(l & Hl & Hpre)]; [|right; by exists l].
        rewrite Hsame. destruct Hfile1 as [-> | ->]; [by left|].
        right. eexists. split; [done|]. rewrite Hall. by apply prefix_app_r.
      * intros Hz. rewrite (H0 Hz). by apply Hfile0.
    + intros [= <- <-]. exists 1%nat. simpl. rewrite ?take_0. simpl. rewrite ?app_nil_r.
      split_and!; [lia|done|done|done|lia| |done].
      destruct Hfile1 as [-> | ->]; [by left|]. right. by eexists.
Qed.

(** With a positive target and a usable save interval, a state that has
    reached the target has its records on file. *)
Lemma for_loop_target_saved skips st f st' :
  save_interval ≠ 0 →
  (total_records ≤ processed_count st → temp_file st = Some (all_sales st)) →
  loop skips st = Return (f, st') →
  total_records ≤ processed_count st' → temp_file st' = Some (all_sales st').
Proof.
  intros Hsave. revert st. induction skips as [|skip skips IH]; intros st Hinv; simpl.
  - by intros [= <- <-].
  - destruct (body skip st) as [[f1 st1]|e] eqn:Hbody; simpl; [|done].
    apply loop_body_effect in Hbody as (Hrows & Hpc & _ & Hfile).
    assert (total_records ≤ processed_count st1 → temp_file st1 = Some (all_sales st1))
      as Hinv1.
    { intros Hreach.
      destruct Hfile as [[Hsame Hf]|[[? _]|[_ Hf]]]; [|done|].
      - assert (length (rows_at skip) = 0%nat) as Hnil by lia.
        apply nil_length_inv in Hnil. rewrite Hrows, Hnil, app_nil_r, Hf.
        apply Hinv. lia.
      - rewrite Hf. destruct (total_records <=? processed_count st1) eqn:Hle; [|lia].
        by rewrite orb_true_r. }
    destruct f1; [by apply IH|]. by intros [= <- <-].
Qed.

Lemma initial_state_counts disk :
  processed_count (initial_state disk) = Z.of_nat (length (all_sales (initial_state disk))) ∧
  all_sales (initial_state disk) = default [] disk ∧
  temp_file (initial_state disk) = disk ∧
  error_count (initial_state disk) = 0 ∧
  fetch_log (initial_state disk) = [].
Proof. by destruct disk. Qed.

(** X7: [processed_count] counts the records: at the end of every run it
    is the length of [all_sales], whatever the pages held. *)
Theorem processed_count_is_number_of_records disk f st :
  run_collection utcoffset requests_post total_records batch_size save_interval disk
    = Return (f, st) →
  processed_count st = Z.of_nat (length (all_sales st)).
Proof.
  unfold run_collection.
  destruct (range _ _ _) as [skips|e]; simpl; [|done].
  intros Hloop. apply for_loop_effect in Hloop as (n & _ & _ & _ & _ & Hcount & _).
  destruct (initial_state_counts disk) as (Hpc & _). lia.
Qed.

(** X8: records are only ever appended.  The result of a run is the rows
    of the checkpoint followed by the records kept from the requested pages,
    page after page in the order of the requests; nothing is removed,
    reordered or merged. *)
Theorem records_are_checkpoint_then_pages disk f st :
  run disk = Return (f, st) →
  ∃ (skips : list Z) (n : nat),
    range (processed_count (initial_state disk)) total_records batch_size = Return skips ∧
    (n ≤ length skips)%nat ∧
    (f = Continue → n = length skips) ∧
    (fetch_log st).*1 = take n skips ∧
    all_sales st = default [] disk ++ mjoin (rows_at <$> take n skips).
Proof.
  unfold run_collection.
  destruct (range _ _ _) as [skips|e]; simpl; [|done].
  intros Hloop.
  apply for_loop_effect in Hloop as (n & Hn & Hf & Hall & Hlog & _).
  destruct (initial_state_counts disk) as (_ & Hrows & _ & _ & Hnil).
  rewrite Hrows in Hall. rewrite Hnil in Hlog.
  exists skips, n. by split_and!.
Qed.

(** X9: the checkpoint file never runs ahead of the records in memory:
    whatever it holds at the end of a run is a prefix of [all_sales]. *)
Theorem checkpoint_is_prefix_of_records disk f st (l : list TradeRecord) :
  run disk = Return (f, st) →
  temp_file st = Some l →
  l `prefix_of` all_sales st.
Proof.
  unfold run_collection.
  destruct (range _ _ _) as [skips|e]; simpl; [|done].
  intros Hloop Hfile.
  apply for_loop_effect in Hloop as (n & _ & _ & Hall & _ & _ & Hpre & _).
  destruct (initial_state_counts disk) as (_ & Hrows & Hdisk & _).
  destruct Hpre as [Hsame|(l' & Hl' & Hpre)].
  - rewrite Hsame, Hdisk in Hfile. rewrite Hall, Hrows, Hfile. simpl.
    by apply prefix_app_r.
  - congruence.
Qed.

(** X10: with [save_interval = 0] the modulo raises inside the inner [try],
    the handler swallows it, and no checkpoint is ever written: the run goes
    on and the file stays as it was found. *)
Theorem zero_save_interval_never_saves disk f st :
  save_interval = 0 →
  run_collection utcoffset requests_post total_records batch_size save_interval disk
    = Return (f, st) →
  temp_file st = disk.
Proof.
  intros Hzero. unfold run_collection.
  destruct (range _ _ _) as [skips|e]; simpl; [|done].
  intros Hloop.
  apply for_loop_effect in Hloop as (n & _ & _ & _ & _ & _ & _ & Hsame).
  rewrite (Hsame Hzero). by destruct disk.
Qed.

(** X11: once the target is reached the checkpoint is complete: for a
    positive target and a non-zero save interval, a run that ends with
    [processed_count >= total_records] leaves all its records on file. *)
Theorem target_reached_is_saved disk f st :
  0 < total_records → save_interval ≠ 0 →
  run_collection utcoffset requests_post total_records batch_size save_interval disk
    = Return (f, st) →
  total_records ≤ processed_count st →
  temp_file st = Some (all_sales st).
Proof.
  intros Hpos Hsave. unfold run_collection.
  destruct (range _ _ _) as [skips|e]; simpl; [|done].
  apply for_loop_target_saved; [done|].
  destruct disk as [rows|]; simpl; [done|lia].
Qed.

(** X12: a checkpoint that already holds the target makes no request: for
    a positive page size the loop body never runs and the rows of the
    checkpoint are returned as they are. *)
Theorem complete_checkpoint_makes_no_request (rows : list TradeRecord) :
  total_records ≤ Z.of_nat (length rows) → 0 < batch_size →
  run (Some rows) = Return (Continue, initial_state (Some rows)) ∧
  collect (Some rows) = Return rows.
Proof.
  intros Hfull Hsize.
  assert (run (Some rows) = Return (Continue, initial_state (Some rows))) as Hrun.
  { unfold run_collection, range. simpl.
    destruct (batch_size =? 0) eqn:H0; [lia|]. simpl.
    unfold range_len. destruct (0 <? batch_size) eqn:Hp; [|lia].
    destruct (Z.of_nat (length rows) <? total_records) eqn:Hlt; [lia|]. done. }
  split; [done|]. unfold collect_and_process_nft_sales. by rewrite Hrun.
Qed.


(** X14: an exception outside [Exception], such as [KeyboardInterrupt],
    raised by the first request goes through both handlers and leaves the
    collector. *)
Theorem interrupt_leaves_collector disk e :
  processed_count (initial_state disk) < total_records → 0 < batch_size →
  requests_post batch_size (processed_count (initial_state disk)) = Raise e →
  is_Exception e = false →
  collect disk = Raise e.
Proof.
  intros Hlt Hsize Hpost Hbase.
  unfold collect_and_process_nft_sales, run_collection.
  rewrite range_Return by lia. simpl.
  rewrite range_len_ceil_div by done.
  pose proof (ceil_div_bounds (total_records - processed_count (initial_state disk))
                batch_size Hsize) as Hb.
  destruct (Z.to_nat _) as [|k] eqn:Hk; [nia|].
  simpl. unfold loop_body, fetch_nft_sales. rewrite Z.mul_0_l, Z.add_0_r, Hpost.
  simpl. by rewrite Hbase.
Qed.

(** X15: records that cannot be normalized do not feed the failure counter:
    when every page is a non-empty list whose records are all dropped, the
    loop goes through the whole range, never breaks, and returns the
    checkpoint rows alone. *)
Theorem dropped_records_do_not_trip_breaker disk (skips : list Z) :
  range (processed_count (initial_state disk)) total_records batch_size = Return skips →
  (∀ skip, skip ∈ skips →
     ∃ page, fetch_nft_sales requests_post batch_size skip = Return (JList page) ∧
       page ≠ [] ∧ kept utcoffset page = []) →
  ∃ st, run disk = Return (Continue, st) ∧
    all_sales st = default [] disk ∧
    (fetch_log st).*1 = skips ∧
    collect disk = Return (default [] disk).
Proof.
  intros Hrange Hpages.
  destruct (for_loop_all_nonempty utcoffset requests_post total_records batch_size
              save_interval skips (initial_state disk)) as [st Hloop].
  { intros skip Hin. destruct (Hpages skip Hin) as (page & Hfetch & Hne & _).
    exists (JList page). split; [done|]. by destruct page. }
  assert (run disk = Return (Continue, st)) as Hrun.
  { unfold run_collection. by rewrite Hrange. }
  destruct (for_loop_effect _ _ _ _ Hloop) as (n & _ & Hn & Hall & Hlog & _).
  rewrite (Hn eq_refl), firstn_all in Hall, Hlog.
  destruct (initial_state_counts disk) as (_ & Hrows & _ & _ & Hnil).
  rewrite Hrows in Hall. rewrite Hnil in Hlog.
  assert (mjoin (rows_at <$> skips) = []) as Hnone.
  { clear -Hpages. induction skips as [|skip skips IH]; [done|].
    assert (rows_at skip = []) as Hrow.
    { destruct (Hpages skip) as (page & Hfetch & Hne & Hkept); [left|].
      unfold page_rows. rewrite Hfetch. unfold page_records. simpl.
      rewrite Hkept. by destruct page. }
    rewrite fmap_cons. simpl. rewrite Hrow. simpl.
    apply IH. intros s Hs. apply Hpages. by right. }
  rewrite Hnone, app_nil_r in Hall.
  exists st. split_and!; try done.
  unfold collect_and_process_nft_sales. rewrite Hrun. simpl. by rewrite Hall.
Qed.

End Loop.

Lemma processed_count_is_number_of_records_witness :
  let st := final_state (run_collection utc first_page_lost 300 100 1000 None) in
  processed_count st = Z.of_nat (length (all_sales st)).
Proof.
  intros st.
  apply (processed_count_is_number_of_records utc first_page_lost 300 100 1000
           None Continue st).
  vm_compute. reflexivity.
Defined.

Lemma records_are_checkpoint_then_pages_witness :
  let st := final_state (run_collection utc first_page_lost 300 100 1000 None) in
  ∃ (skips : list Z) (n : nat),
    range 0 300 100 = Return skips ∧
    (n ≤ length skips)%nat ∧
    (Continue = Continue → n = length skips) ∧
    (fetch_log st).*1 = take n skips ∧
    all_sales st = [] ++ mjoin (page_rows utc first_page_lost 100 <$> take n skips).
Proof.
  intros st.
  apply (records_are_checkpoint_then_pages utc first_page_lost 300 100 1000
           None Continue st).
  vm_compute. reflexivity.
Defined.

Lemma checkpoint_is_prefix_of_records_witness :
  let st := final_state (run_collection utc full_pages 250 100 100 None) in
  all_sales st `prefix_of` all_sales st.
Proof.
  intros st.
  apply (checkpoint_is_prefix_of_records utc full_pages 250 100 100 None Continue st).
  - vm_compute. reflexivity.
  - vm_compute. reflexivity.
Defined.

Lemma zero_save_interval_never_saves_witness :
  temp_file (final_state (run_collection utc full_pages 300 100 0 None)) = None.
Proof.
  apply (zero_save_interval_never_saves utc full_pages 300 100 0 None Continue).
  - reflexivity.
  - vm_compute. reflexivity.
Defined.

Lemma target_reached_is_saved_witness :
  let st := final_state (run_collection utc full_pages 250 100 1000 None) in
  temp_file st = Some (all_sales st).
Proof.
  intros st.
  apply (target_reached_is_saved utc full_pages 250 100 1000 None Continue st).
  - lia.
  - lia.
  - vm_compute. reflexivity.
  - vm_compute. discriminate.
Defined.

Lemma complete_checkpoint_makes_no_request_witness :
  run_collection utc offline 2 100 1000 (Some [sample_record; sample_record])
    = Return (Continue, initial_state (Some [sample_record; sample_record])) ∧
  collect_and_process_nft_sales utc offline 2 100 1000 (Some [sample_record; sample_record])
    = Return [sample_record; sample_record].
Proof.
  apply (complete_checkpoint_makes_no_request utc offline 2 100 1000); simpl; lia.
Defined.


Lemma interrupt_leaves_collector_witness :
  collect_and_process_nft_sales utc interrupted 300 100 1000 None = Raise KeyboardInterrupt.
Proof.
  apply (interrupt_leaves_collector utc interrupted 300 100 1000 None KeyboardInterrupt).
  - simpl. lia.
  - lia.
  - reflexivity.
  - reflexivity.
Defined.

Lemma dropped_records_do_not_trip_breaker_witness :
  ∃ st, run_collection utc malformed_pages 1000 100 500 None = Return (Continue, st) ∧
    all_sales st = [] ∧
    (fetch_log st).*1 = [0; 100; 200; 300; 400; 500; 600; 700; 800; 900] ∧
    collect_and_process_nft_sales utc malformed_pages 1000 100 500 None = Return [].
Proof.
  apply (dropped_records_do_not_trip_breaker utc malformed_pages 1000 100 500 None).
  - reflexivity.
  - intros skip _. eexists. split_and!; [reflexivity|done|reflexivity].
Defined.

End CollectorExtras.

(** ** The second script against the first *)
Module Collector2Facts.
Import Python Collector Fixtures ExtraFixtures NormalizerFacts CollectorFacts.

(** X16: the second script's [parse_sale_data] raises exactly on the
    records that the first script's drops, and returns the same record on
    all others. *)
Theorem unguarded_parse_raises_where_guarded_drops (utcoffset : Z → Z) (sale : json) :
  (parse_sale_data utcoffset sale = Return None ↔
     raises (Collector2.parse_sale_data utcoffset sale)) ∧
  (∀ r, parse_sale_data utcoffset sale = Return (Some r) ↔
        Collector2.parse_sale_data utcoffset sale = Return r).
Proof.
  unfold Collector2.parse_sale_data, raises.
  destruct (parse_sale_data_cases utcoffset sale) as [[H1 [e H2]]|(r & H1 & H2)];
    rewrite H1, H2.
  - split; [split; [by eexists|done]|]. intros r. by split.
  - split; [split; [done|by intros [e ?]]|].
    intros r'. split; [by intros [= ->]|by intros [= ->]].
Qed.

Section Loop.

Variable utcoffset : Z → Z.
Variable requests_post : Z → Z → result Response.
Variables total_records batch_size save_interval : Z.

Abbreviation fetch1 := (fetch_nft_sales requests_post batch_size).
Abbreviation fetch2 := (Collector2.fetch_nft_sales requests_post batch_size).
Abbreviation body2 :=
  (Collector2.loop_body utcoffset requests_post total_records batch_size save_interval).
Abbreviation loop2 :=
  (Collector2.for_loop utcoffset requests_post total_records batch_size save_interval).
Abbreviation run1 :=
  (run_collection utcoffset requests_post total_records batch_size save_interval).
Abbreviation run2 :=
  (Collector2.run_collection utcoffset requests_post total_records batch_size
     save_interval).
Abbreviation collect2 :=
  (Collector2.collect_and_process_nft_sales utcoffset requests_post total_records
     batch_size save_interval).

Lemma for_loop2_app skips1 skips2 st :
  loop2 (skips1 ++ skips2) st =
    r ← loop2 skips1 st;
    match r with
    | (Break, st') => Return (Break, st')
    | (Continue, st') => loop2 skips2 st'
    end.
Proof.
  revert st. induction skips1 as [|skip skips1 IH]; intros st; simpl; [done|].
  destruct (body2 skip st) as [[[] st1]|e]; simpl; [apply IH|done|done].
Qed.

(** The inner loop of the second script on a page of records that all
    normalize, and on a page with one that does not. *)
Lemma process_batch2_clean page all_sales n :
  Forall (λ sale, ∃ r, parse_sale_data utcoffset sale = Return (Some r)) page →
  Collector2.process_batch utcoffset page all_sales n
    = Return (all_sales ++ kept utcoffset page, n + Z.of_nat (length (kept utcoffset page))) ∧
  length (kept utcoffset page) = length page.
Proof.
  intros Hclean. revert all_sales n.
  induction Hclean as [|sale page [r Hr] _ IH]; intros all_sales n.
  - simpl. by rewrite app_nil_r, Z.add_0_r.
  - rewrite kept_cons, Hr. cbn [Collector2.process_batch].
    unfold Collector2.parse_sale_data.
    destruct (parse_sale_data_cases utcoffset sale) as [[H _]|(r' & H & ->)];
      [congruence|].
    assert (r' = r) as -> by congruence. simpl.
    destruct (IH (all_sales ++ [r]) (n + 1)) as [-> Hlen].
    cbn [length]. rewrite <- app_assoc, Hlen. simpl. split; [|done].
    do 2 f_equal. lia.
Qed.

Lemma process_batch2_malformed page sale all_sales n :
  sale ∈ page → parse_sale_data utcoffset sale = Return None →
  raises (Collector2.process_batch utcoffset page all_sales n).
Proof.
  intros Hin Hnone. revert all_sales n.
  induction page as [|x page IH]; intros all_sales n; [by apply elem_of_nil in Hin|].
  simpl. unfold Collector2.parse_sale_data at 1.
  destruct (parse_sale_data_body utcoffset x) as [r|e] eqn:Hx; simpl; [|by eexists].
  apply elem_of_cons in Hin as [->|Hin]; [|by apply IH].
  apply parse_sale_data_None_iff in Hnone as [e He]. congruence.
Qed.

(** One iteration of the second script on a non-empty list page. *)
Lemma loop_body2_page skip st page :
  fetch2 skip = Return (JList page) → page ≠ [] →
  body2 skip st =
    appended ← Collector2.process_batch utcoffset page (all_sales (log_fetch skip st)) 0;
    let st2 := set_all_sales appended.1 (log_fetch skip st) in
    let st3 := set_processed_count (processed_count st2 + appended.2) st2 in
    r ← mod_ (processed_count st3) save_interval;
    if (r =? 0) || (total_records <=? processed_count st3)
    then Return (Continue, save_progress st3)
    else Return (Continue, st3).
Proof.
  intros Hfetch Hne. unfold Collector2.loop_body. rewrite Hfetch.
  assert (truthy (JList page) = true) as Ht by by destruct page.
  cbn [mbind result_bind]. rewrite Ht. reflexivity.
Qed.

Lemma loop_body2_malformed skip st page sale :
  fetch2 skip = Return (JList page) → sale ∈ page →
  parse_sale_data utcoffset sale = Return None →
  raises (body2 skip st).
Proof.
  intros Hfetch Hin Hnone.
  rewrite (loop_body2_page skip st page) by
    (try done; intros ->; by apply elem_of_nil in Hin).
  destruct (process_batch2_malformed page sale (all_sales (log_fetch skip st)) 0
              Hin Hnone) as [e ->].
  by exists e.
Qed.

Lemma loop_body2_clean skip st page :
  fetch2 skip = Return (JList page) → page ≠ [] →
  Forall (λ sale, ∃ r, parse_sale_data utcoffset sale = Return (Some r)) page →
  body2 skip st =
    let st2 := set_all_sales (all_sales st ++ kept utcoffset page) (log_fetch skip st) in
    let st3 :=
      set_processed_count (processed_count st + Z.of_nat (length (kept utcoffset page)))
        st2 in
    r ← mod_ (processed_count st3) save_interval;
    if (r =? 0) || (total_records <=? processed_count st3)
    then Return (Continue, save_progress st3)
    else Return (Continue, st3).
Proof.
  intros Hfetch Hne Hclean. rewrite (loop_body2_page skip st page) by done.
  destruct (process_batch2_clean page (all_sales (log_fetch skip st)) 0 Hclean)
    as [-> _].
  by destruct st.
Qed.

(** X17: the second script has no failure counter: the first empty page
    ends its loop, and what was collected before it is returned. *)
Theorem first_empty_page_ends_second_collector disk before skip rest st batch :
  range (processed_count (initial_state disk)) total_records batch_size
    = Return (before ++ skip :: rest) →
  loop2 before (initial_state disk) = Return (Continue, st) →
  fetch2 skip = Return batch → truthy batch = false →
  run2 disk = Return (Break, log_fetch skip st) ∧
  collect2 disk = Return (all_sales st).
Proof.
  intros Hrange Hbefore Hfetch Hempty.
  assert (run2 disk = Return (Break, log_fetch skip st)) as Hrun.
  { unfold Collector2.run_collection. rewrite Hrange. simpl.
    rewrite for_loop2_app, Hbefore. simpl.
    unfold Collector2.loop_body. rewrite Hfetch. simpl. by rewrite Hempty. }
  split; [done|]. unfold Collector2.collect_and_process_nft_sales. by rewrite Hrun.
Qed.

(** X18: in the second script one record that cannot be normalized aborts
    the whole collection: with such a record on the first page the function
    raises and returns nothing, where the first script drops the record. *)
Theorem malformed_record_aborts_second_collector disk page sale :
  processed_count (initial_state disk) < total_records → 0 < batch_size →
  fetch2 (processed_count (initial_state disk)) = Return (JList page) →
  sale ∈ page →
  parse_sale_data utcoffset sale = Return None →
  raises (collect2 disk).
Proof.
  intros Hlt Hsize Hfetch Hin Hnone.
  unfold Collector2.collect_and_process_nft_sales, Collector2.run_collection.
  rewrite range_Return by lia. simpl.
  rewrite range_len_ceil_div by done.
  pose proof (ceil_div_bounds (total_records - processed_count (initial_state disk))
                batch_size Hsize) as Hb.
  destruct (Z.to_nat _) as [|k] eqn:Hk; [nia|].
  cbn [seq fmap list_fmap Collector2.for_loop]. change (Z.of_nat 0) with 0. rewrite Z.mul_0_l, Z.add_0_r.
  destruct (loop_body2_malformed (processed_count (initial_state disk))
              (initial_state disk) page sale Hfetch Hin Hnone) as [e ->].
  by exists e.
Qed.

Lemma loop_bodies_agree skip st page :
  save_interval ≠ 0 → error_count st = 0 →
  fetch1 skip = Return (JList page) → fetch2 skip = Return (JList page) →
  page ≠ [] →
  Forall (λ sale, ∃ r, parse_sale_data utcoffset sale = Return (Some r)) page →
  ∃ st', body2 skip st = Return (Continue, st') ∧
    loop_body utcoffset requests_post total_records batch_size save_interval skip st
      = Return (Continue, st') ∧
    error_count st' = 0.
Proof.
  intros Hsave Hec Hf1 Hf2 Hne Hclean.
  rewrite (loop_body2_clean skip st page Hf2 Hne Hclean).
  unfold loop_body. rewrite Hf1.
  assert (truthy (JList page) = true) as Ht by by destruct page.
  cbn [mbind result_bind try_except_Exception]. simpl.
  destruct page as [|x page]; [done|]. cbn [length Nat.eqb negb].
  rewrite process_batch_kept. simpl.
  unfold mod_. destruct (save_interval =? 0) eqn:H0; [lia|]. simpl.
  destruct st as [a p e t l]. simpl in *. subst e.
  destruct (_ || _); eexists; split_and!; reflexivity.
Qed.

(** X19: on clean input the two scripts do the same: when every page of
    the range is a non-empty list of records that all normalize, and the
    save interval is not zero, both collectors end in the same state with
    the same records and the same file. *)
Theorem scripts_agree_on_clean_pages disk skips :
  save_interval ≠ 0 →
  range (processed_count (initial_state disk)) total_records batch_size = Return skips →
  (∀ skip, skip ∈ skips →
     ∃ page, fetch1 skip = Return (JList page) ∧ fetch2 skip = Return (JList page) ∧
       page ≠ [] ∧
       Forall (λ sale, ∃ r, parse_sale_data utcoffset sale = Return (Some r)) page) →
  ∃ st, run2 disk = Return (Continue, st) ∧ run1 disk = Return (Continue, st).
Proof.
  intros Hsave Hrange Hpages.
  unfold Collector2.run_collection, run_collection. rewrite Hrange. simpl.
  assert (error_count (initial_state disk) = 0) as Hec by by destruct disk.
  revert Hec. generalize (initial_state disk) as st.
  clear Hrange. induction skips as [|skip skips IH]; intros st Hec; simpl.
  - by exists st.
  - destruct (Hpages skip) as (page & Hf1 & Hf2 & Hne & Hclean); [left|].
    destruct (loop_bodies_agree skip st page Hsave Hec Hf1 Hf2 Hne Hclean)
      as (st1 & -> & -> & Hec1).
    simpl. apply IH; [|done]. intros s Hs. apply Hpages. by right.
Qed.

(** X20: with [save_interval = 0] the second script does not get past its
    first non-empty page: the modulo raises [ZeroDivisionError] and nothing
    catches it. *)
Theorem zero_save_interval_aborts_second_collector disk page :
  save_interval = 0 →
  processed_count (initial_state disk) < total_records → 0 < batch_size →
  fetch2 (processed_count (initial_state disk)) = Return (JList page) →
  page ≠ [] →
  Forall (λ sale, ∃ r, parse_sale_data utcoffset sale = Return (Some r)) page →
  collect2 disk = Raise ZeroDivisionError.
Proof.
  intros Hzero Hlt Hsize Hfetch Hne Hclean.
  unfold Collector2.collect_and_process_nft_sales, Collector2.run_collection.
  rewrite range_Return by lia. simpl.
  rewrite range_len_ceil_div by done.
  pose proof (ceil_div_bounds (total_records - processed_count (initial_state disk))
                batch_size Hsize) as Hb.
  destruct (Z.to_nat _) as [|k] eqn:Hk; [nia|].
  cbn [seq fmap list_fmap Collector2.for_loop]. change (Z.of_nat 0) with 0. rewrite Z.mul_0_l, Z.add_0_r.
  rewrite (loop_body2_clean _ _ page Hfetch Hne Hclean).
  unfold mod_. by rewrite Hzero.
Qed.

End Loop.

Lemma first_empty_page_ends_second_collector_witness :
  let st := final_state (Collector2.for_loop utc dries_up 6 2 2 [0] (initial_state None)) in
  Collector2.run_collection utc dries_up 6 2 2 None = Return (Break, log_fetch 2 st) ∧
  Collector2.collect_and_process_nft_sales utc dries_up 6 2 2 None = Return (all_sales st).
Proof.
  intros st.
  apply (first_empty_page_ends_second_collector utc dries_up 6 2 2 None [0] 2 [4] st
           (JList []));
    reflexivity.
Defined.

Lemma malformed_record_aborts_second_collector_witness :
  raises (Collector2.collect_and_process_nft_sales utc malformed_pages 300 100 1000 None).
Proof.
  apply (malformed_record_aborts_second_collector utc malformed_pages 300 100 1000 None
           [JNull; JObj (<["blockTimestamp" := JStr "soon"]> ∅)] JNull).
  - simpl. lia.
  - lia.
  - reflexivity.
  - left.
  - reflexivity.
Defined.

Lemma scripts_agree_on_clean_pages_witness :
  ∃ st, Collector2.run_collection utc full_pages 4 2 2 None = Return (Continue, st) ∧
    run_collection utc full_pages 4 2 2 None = Return (Continue, st).
Proof.
  apply (scripts_agree_on_clean_pages utc full_pages 4 2 2 None [0; 2]).
  - lia.
  - reflexivity.
  - intros skip _. exists [JObj raw_example; JObj raw_example].
    split_and!; [reflexivity|reflexivity|done|].
    repeat constructor; by exists sample_record.
Defined.

Lemma zero_save_interval_aborts_second_collector_witness :
  Collector2.collect_and_process_nft_sales utc full_pages 4 2 0 None
    = Raise ZeroDivisionError.
Proof.
  apply (zero_save_interval_aborts_second_collector utc full_pages 4 2 0 None
           [JObj raw_example; JObj raw_example]).
  - reflexivity.
  - simpl. lia.
  - lia.
  - reflexivity.
  - done.
  - repeat constructor; by exists sample_record.
Defined.

End Collector2Facts.

(** ** The sample at other sizes *)
Module SamplingExtras.
Import Python Collector Fixtures ExtraFixtures SamplingFacts.


Section Sample.

Variable sort : list TradeRecord → list TradeRecord.
Variable permutation : nat → list nat.

Hypothesis sort_Permutation : ∀ df, sort df ≡ₚ df.
Hypothesis permutation_Permutation : ∀ n, permutation n ≡ₚ seq 0 n.



End Sample.

Section Negative.

Variable sort : list TradeRecord → list TradeRecord.
Variable permutation : nat → list nat.

(** X22: a negative [sample_size] is not rejected up front.  With -1 the
    halves are [head(-1)] and a sample of 0 rows, so every row but the last
    of the sorted frame is returned; from -2 down the size handed to
    [sample] is negative and the function raises [ValueError]. *)
Theorem negative_sample_size_outcomes (sales_df : list TradeRecord) (sample_size : Z) :
  sample_size < 0 →
  let sorted := sort sales_df in
  let indexed := zip (Z.of_nat <$> seq 1 (length sorted)) sorted in
  prepare_data_for_llm sort permutation sales_df sample_size =
    if sample_size =? -1
    then Return (select_columns <$> take (length sorted - 1) indexed)
    else Raise ValueError.
Proof.
  intros Hneg sorted indexed.
  assert (length indexed = length sorted) as Hilen.
  { unfold indexed. rewrite length_zip_with, length_fmap, length_seq. lia. }
  unfold prepare_data_for_llm. fold sorted. fold indexed. cbv zeta.
  destruct (Z.ltb_spec sample_size (Z.of_nat (length sorted))); [|lia].
  assert (sample_size / 2 < 0) as Hhalf by (apply Z.div_lt_upper_bound; lia).
  rewrite Z.min_l by lia.
  unfold sample.
  destruct (sample_size =? -1) eqn:Hm1.
  - apply Z.eqb_eq in Hm1 as ->.
    change (-1 / 2) with (-1). change (-1 - -1) with 0.
    change (0 <? 0) with false. cbv iota.
    destruct (Z.ltb_spec (Z.of_nat (length (slice_from (-1) indexed))) 0); [lia|].
    change (Z.to_nat 0) with 0%nat. rewrite take_0. simpl.
    unfold slice_to. change (-1 <? 0) with true. cbv iota.
    rewrite app_nil_r, Hilen. do 3 f_equal. lia.
  - assert (sample_size - sample_size / 2 < 0) as Hk
      by (apply Z.eqb_neq in Hm1; Z.to_euclidean_division_equations; lia).
    destruct (Z.ltb_spec (sample_size - sample_size / 2) 0); [done|lia].
Qed.

End Negative.


Lemma negative_sample_size_outcomes_witness :
  prepare_data_for_llm merge_sort_desc (seq 0) (trades 5) (-4) = Raise ValueError.
Proof.
  apply (negative_sample_size_outcomes merge_sort_desc (seq 0) (trades 5) (-4)). lia.
Defined.

End SamplingExtras.

(** ** The decoder beyond the price *)
Module DecoderExtras.
Import Python Decoder DecoderFixtures ExtraFixtures DecoderExtraFixtures DecoderFacts.

Lemma in_nft_types (item : SpentItem) :
  bool_decide (o_itemType item ∈ [2; 3; 4; 5]) = is_nft_type item.
Proof.
  unfold is_nft_type.
  destruct (bool_decide_reflect (o_itemType item ∈ [2; 3; 4; 5])) as [Hin|Hout].
  - symmetry. rewrite !elem_of_cons, elem_of_nil in Hin. lia.
  - symmetry. apply not_true_is_false. intros H. apply Hout.
    rewrite !elem_of_cons. lia.
Qed.

Section Decode.

Variable utcoffset : Z → Z.
Variable requests_get : string → result Response.
Variable get_transaction : string → result Transaction.
Variable get_transaction_receipt : string → result Receipt.
Variable get_block : Z → result Block.
Variable seaport_address : string.
Variable process_log : Log → result OrderFulfilled.
Context {float64 : Type}.
Variable float : number → float64.
Variable float_add : float64 → float64 → float64.

Abbreviation decode' :=
  (decode_transaction utcoffset requests_get get_transaction get_transaction_receipt
     get_block seaport_address process_log float float_add).
Abbreviation scan' := (scan_logs seaport_address process_log).
Abbreviation event_of := (seaport_event seaport_address process_log).

(** The scan is a filter: the events of the logs that come from Seaport and
    decode, in the order of the logs. *)
Lemma scan_logs_omap logs events :
  scan' logs events = events ++ omap event_of logs.
Proof.
  revert events. induction logs as [|log logs IH]; intros events; simpl.
  - by rewrite app_nil_r.
  - unfold seaport_event. destruct (String.eqb _ _); [|apply IH].
    destruct (process_log log) as [ev|e]; [|apply IH].
    rewrite IH. by rewrite <- app_assoc.
Qed.

Lemma omap_head_split {A B} (f : A → option B) (l : list A) y ys :
  omap f l = y :: ys →
  ∃ before x after, l = before ++ x :: after ∧ f x = Some y ∧
    Forall (λ a, f a = None) before ∧ omap f after = ys.
Proof.
  induction l as [|a l IH]; simpl; [done|].
  destruct (f a) as [b|] eqn:Hfa; simpl.
  - intros [= -> <-]. exists [], a, l. by split_and!.
  - intros H. destruct (IH H) as (before & x & after & -> & Hx & Hbefore & Hafter).
    exists (a :: before), x, after. split_and!; try done. by constructor.
Qed.

(** What a returned dictionary was built from. *)
Lemma decode_transaction_inv tx_hash info :
  decode' tx_hash = Return info →
  ∃ tx receipt block date_time gas_price tx_fee_eth event_data rest nft_items paid,
    get_transaction tx_hash = Return tx ∧
    get_transaction_receipt tx_hash = Return receipt ∧
    get_block (blockNumber receipt) = Return block ∧
    fromtimestamp utcoffset (timestamp block) = Return date_time ∧
    from_wei (gasPrice tx) "gwei" = Return gas_price ∧
    from_wei (gasPrice tx * gasUsed receipt) "ether" = Return tx_fee_eth ∧
    scan' (logs receipt) [] = event_data :: rest ∧
    offer_loop requests_get (offer event_data) [] = Return nft_items ∧
    payment_loop float float_add (consideration event_data) [] (PInt 0) = Return paid ∧
    info = {| i_hash := tx_hash;
              i_from := tx_from tx;
              i_to := tx_to tx;
              i_block_number := blockNumber receipt;
              i_timestamp := timestamp block;
              i_datetime := strftime_datetime date_time;
              i_gas_used := gasUsed receipt;
              i_gas_price := gas_price;
              i_tx_fee_eth := tx_fee_eth;
              has_order_fulfilled := true;
              order_hash := hex (orderHash event_data);
              i_offerer := offerer event_data;
              i_zone := zone event_data;
              i_recipient := ev_recipient event_data;
              total_price_eth := paid.2;
              nft_items := nft_items;
              payment_items := paid.1 |}.
Proof.
  unfold decode_transaction.
  destruct (get_transaction tx_hash) as [tx|] eqn:Htx; simpl; [|done].
  destruct (get_transaction_receipt tx_hash) as [receipt|] eqn:Hreceipt; simpl; [|done].
  destruct (get_block _) as [block|] eqn:Hblock; simpl; [|done].
  destruct (fromtimestamp _ _) as [dt|] eqn:Hdt; simpl; [|done].
  destruct (from_wei _ "gwei") as [gp|] eqn:Hgp; simpl; [|done].
  destruct (from_wei _ "ether") as [fee|] eqn:Hfee; simpl; [|done].
  rewrite index_0.
  destruct (scan' (logs receipt) []) as [|event_data rest] eqn:Hscan; simpl; [done|].
  destruct (offer_loop _ _ _) as [items|] eqn:Hoffer; simpl; [|done].
  destruct (payment_loop _ _ _ _ _) as [paid|] eqn:Hpaid; simpl; [|done].
  intros [= <-]. exists tx, receipt, block, dt, gp, fee, event_data, rest, items, paid.
  by split_and!.
Qed.

(** X23: the trade of a decoded transaction is that of the first log, in
    receipt order, that comes from the Seaport address (compared without
    regard to case) and decodes as [OrderFulfilled]: seller, buyer, zone and
    order hash are copied from it, and whatever later logs hold, further
    Seaport events included, plays no part in them. *)
Theorem trade_comes_from_first_seaport_event tx_hash info :
  decode' tx_hash = Return info →
  ∃ receipt before log after event_data,
    get_transaction_receipt tx_hash = Return receipt ∧
    logs receipt = before ++ log :: after ∧
    Forall (λ l, event_of l = None) before ∧
    event_of log = Some event_data ∧
    lower (address log) = lower seaport_address ∧
    process_log log = Return event_data ∧
    i_offerer _ info = offerer event_data ∧
    i_recipient _ info = ev_recipient event_data ∧
    i_zone _ info = zone event_data ∧
    order_hash _ info = hex (orderHash event_data).
Proof.
  intros Hdecode.
  apply decode_transaction_inv in Hdecode
    as (tx & receipt & block & dt & gp & fee & ev & rest & nfts & paid &
        _ & Hreceipt & _ & _ & _ & _ & Hscan & _ & _ & ->).
  rewrite scan_logs_omap in Hscan. simpl in Hscan.
  apply omap_head_split in Hscan as (before & log & after & Hlogs & Hlog & Hbefore & _).
  exists receipt, before, log, after, ev. split_and!; try done.
  - unfold seaport_event in Hlog.
    destruct (String.eqb _ _) eqn:Heq; [|done]. by apply String.eqb_eq in Heq.
  - unfold seaport_event in Hlog.
    destruct (String.eqb _ _); [|done].
    destruct (process_log log); [|done]. by injection Hlog as ->.
Qed.

(** The offer loop adds one entry per item, in order. *)
Lemma offer_loop_entries items acc out :
  offer_loop requests_get items acc = Return out →
  ∃ entries, out = acc ++ entries ∧
    Forall2 (λ item entry,
      n_item_type entry = o_itemType item ∧
      n_item_type_name entry = get_item_type_name (o_itemType item) ∧
      n_token_address entry = o_token item ∧
      n_token_id entry = o_identifier item ∧
      n_amount entry = o_amount item ∧
      is_nft entry = is_nft_type item ∧
      collection_name entry = (if is_nft_type item then Some (o_token item) else None) ∧
      opensea_link entry =
        (if is_nft_type item
         then Some ("https://opensea.io/assets/" +:+ o_token item +:+ "/"
                    +:+ str (o_identifier item))
         else None)) items entries.
Proof.
  revert acc. induction items as [|item items IH]; intros acc; simpl.
  - intros [= <-]. exists []. by rewrite app_nil_r.
  - rewrite in_nft_types. destruct (is_nft_type item) eqn:Hnft; simpl.
    + unfold get_collection_name. rewrite NFT_COLLECTIONS_lookup. cbv zeta.
      destruct (requests_get _) as [response|]; simpl; [|done].
      destruct (response_json response) as [data|]; simpl; [|done].
      intros H. apply IH in H as (entries & -> & Hentries).
      eexists (_ :: entries). rewrite <- app_assoc. split; [done|].
      constructor; [|done]. simpl. by rewrite Hnft.
    + intros H. apply IH in H as (entries & -> & Hentries).
      eexists (_ :: entries). rewrite <- app_assoc. split; [done|].
      constructor; [|done]. simpl. by rewrite Hnft.
Qed.

(** X24: [nft_items] of a decoded transaction has one entry per offered
    item of the event, in order, with type, token, identifier and amount
    copied; an entry is marked NFT exactly for the types 2 to 5, and then
    its collection name is the token address itself, never a name. *)
Theorem nft_items_mirror_offer tx_hash info :
  decode' tx_hash = Return info →
  ∃ receipt event_data rest,
    get_transaction_receipt tx_hash = Return receipt ∧
    scan_logs seaport_address process_log (logs receipt) [] = event_data :: rest ∧
    Forall2 (λ item entry,
      n_item_type entry = o_itemType item ∧
      n_token_address entry = o_token item ∧
      n_token_id entry = o_identifier item ∧
      n_amount entry = o_amount item ∧
      (is_nft entry = true ↔ 2 ≤ o_itemType item ≤ 5) ∧
      collection_name entry = (if is_nft entry then Some (o_token item) else None))
      (offer event_data) (nft_items _ info).
Proof.
  intros Hdecode.
  apply decode_transaction_inv in Hdecode
    as (tx & receipt & block & dt & gp & fee & ev & rest & nfts & paid &
        _ & Hreceipt & _ & _ & _ & _ & Hscan & Hoffer & _ & ->).
  exists receipt, ev, rest. split_and!; try done. simpl.
  apply offer_loop_entries in Hoffer as (entries & -> & Hentries). simpl.
  eapply Forall2_impl; [exact Hentries|].
  intros item entry (H1 & _ & H2 & H3 & H4 & H5 & H6 & _).
  split_and!; try done.
  - rewrite H5. unfold is_nft_type. lia.
  - by rewrite H5.
Qed.

(** The payment loop adds one entry per item, in order. *)
Lemma payment_loop_entries items acc total paid :
  payment_loop float float_add items acc total = Return paid →
  ∃ entries, paid.1 = acc ++ entries ∧
    Forall2 (λ item entry,
      p_item_type _ entry = itemType item ∧
      p_item_type_name _ entry = get_item_type_name (itemType item) ∧
      p_token_address _ entry = token item ∧
      p_token_id _ entry = identifier item ∧
      p_amount _ entry = amount item ∧
      p_recipient _ entry = recipient item ∧
      amount_eth entry =
        (if is_currency item then Some (float (ether_value (amount item))) else None) ∧
      (is_currency item = true → 0 ≤ amount item ≤ MAX_WEI)) items entries.
Proof.
  revert acc total. induction items as [|item items IH]; intros acc total; simpl.
  - intros [= <-]. exists []. by rewrite app_nil_r.
  - rewrite in_currency_types. destruct (is_currency item) eqn:Hcur; simpl.
    + destruct (from_wei (amount item) "ether") as [wei|] eqn:Hwei; simpl; [|done].
      assert (0 ≤ amount item ≤ MAX_WEI) as Hrange.
      { revert Hwei. unfold from_wei. rewrite units_ether.
        destruct (amount item =? 0) eqn:H0; [unfold MAX_WEI; lia|].
        destruct (amount item <? 0) eqn:H1; destruct (MAX_WEI <? amount item) eqn:H2;
          simpl; try done. lia. }
      apply from_wei_ether in Hwei as ->.
      intros H. apply IH in H as (entries & -> & Hentries).
      eexists (_ :: entries). rewrite <- app_assoc. split; [done|].
      constructor; [|done]. simpl. by rewrite Hcur.
    + intros H. apply IH in H as (entries & -> & Hentries).
      eexists (_ :: entries). rewrite <- app_assoc. split; [done|].
      constructor; [|done]. simpl. by rewrite Hcur.
Qed.

(** X25: [payment_items] of a decoded transaction has one entry per
    consideration item of the event, in order, recipient included; an entry
    carries [amount_eth] exactly for the types 0 and 1, where it is the
    float of the exact [amount / 10^18] and the amount is a 256-bit
    value. *)
Theorem payment_items_mirror_consideration tx_hash info :
  decode' tx_hash = Return info →
  ∃ receipt event_data rest,
    get_transaction_receipt tx_hash = Return receipt ∧
    scan' (logs receipt) [] = event_data :: rest ∧
    Forall2 (λ item entry,
      p_item_type _ entry = itemType item ∧
      p_token_address _ entry = token item ∧
      p_token_id _ entry = identifier item ∧
      p_amount _ entry = amount item ∧
      p_recipient _ entry = recipient item ∧
      amount_eth entry =
        (if is_currency item then Some (float (ether_value (amount item))) else None) ∧
      (is_currency item = true → 0 ≤ amount item ≤ MAX_WEI))
      (consideration event_data) (payment_items info).
Proof.
  intros Hdecode.
  apply decode_transaction_inv in Hdecode
    as (tx & receipt & block & dt & gp & fee & ev & rest & nfts & paid &
        _ & Hreceipt & _ & _ & _ & _ & Hscan & _ & Hpaid & ->).
  exists receipt, ev, rest. split_and!; try done. simpl.
  apply payment_loop_entries in Hpaid as (entries & -> & Hentries). simpl.
  eapply Forall2_impl; [exact Hentries|].
  intros item entry (H1 & _ & H2 & H3 & H4 & H5 & H6 & H7). by split_and!.
Qed.

Lemma from_wei_value n unit k v :
  units !! lower unit = Some k → 0 ≤ k →
  from_wei n unit = Return v →
  0 ≤ n ≤ MAX_WEI ∧ (number_to_Q v * inject_Z (10 ^ k) == inject_Z n)%Q.
Proof.
  intros Hunit Hk. unfold from_wei. rewrite Hunit.
  destruct (n =? 0) eqn:H0.
  - apply Z.eqb_eq in H0 as ->. intros [= <-]. split; [unfold MAX_WEI; lia|].
    simpl. unfold Qeq. simpl. lia.
  - destruct (n <? 0) eqn:H1; destruct (MAX_WEI <? n) eqn:H2; simpl; try done.
    intros [= <-]. split; [lia|].
    unfold number_to_Q. cbn [exponent coefficient].
    destruct (0 <=? - k) eqn:Hneg.
    + assert (k = 0) as -> by lia. simpl. unfold Qeq. simpl. lia.
    + rewrite Z.opp_involutive. unfold Qeq. cbn [Qnum Qden Qmult inject_Z].
      rewrite Pos.mul_1_r, Z2Pos.id by (apply Z.pow_pos_nonneg; lia). lia.
Qed.

(** X26: in a decoded transaction the gas price is the transaction's
    [gasPrice] in gwei and the fee is [gasPrice * gasUsed] in ether, both
    exact, so the fee in gwei is the gas used times the gas price in gwei;
    a result exists only when [gasPrice] and the product are 256-bit
    values. *)
Theorem fee_is_gas_used_times_gas_price tx_hash info :
  decode' tx_hash = Return info →
  ∃ tx receipt,
    get_transaction tx_hash = Return tx ∧
    get_transaction_receipt tx_hash = Return receipt ∧
    i_gas_used _ info = gasUsed receipt ∧
    0 ≤ gasPrice tx ≤ MAX_WEI ∧
    0 ≤ gasPrice tx * gasUsed receipt ≤ MAX_WEI ∧
    (number_to_Q (i_gas_price _ info) * inject_Z (10 ^ 9) == inject_Z (gasPrice tx))%Q ∧
    (number_to_Q (i_tx_fee_eth _ info) * inject_Z (10 ^ 18)
       == inject_Z (gasPrice tx * gasUsed receipt))%Q ∧
    (number_to_Q (i_tx_fee_eth _ info) * inject_Z (10 ^ 9)
       == number_to_Q (i_gas_price _ info) * inject_Z (i_gas_used _ info))%Q.
Proof.
  intros Hdecode.
  apply decode_transaction_inv in Hdecode
    as (tx & receipt & block & dt & gp & fee & ev & rest & nfts & paid &
        Htx & Hreceipt & _ & _ & Hgp & Hfee & _ & _ & _ & ->).
  exists tx, receipt. cbn [i_gas_used i_gas_price i_tx_fee_eth].
  apply (from_wei_value _ _ 9) in Hgp as [Hgp1 Hgp2]; [|reflexivity|lia].
  apply (from_wei_value _ _ 18) in Hfee as [Hfee1 Hfee2]; [|reflexivity|lia].
  split_and!; try done; try lia.
  apply (Qmult_inj_r _ _ (inject_Z (10 ^ 9))); [discriminate|].
  rewrite <- Qmult_assoc.
  assert (inject_Z (10 ^ 9) * inject_Z (10 ^ 9) == inject_Z (10 ^ 18))%Q as ->
    by reflexivity.
  rewrite Hfee2.
  transitivity (number_to_Q gp * inject_Z (10 ^ 9) * inject_Z (gasUsed receipt))%Q.
  - rewrite Hgp2. by rewrite <- inject_Z_mult.
  - ring.
Qed.

(** X27: an offered item of an NFT type costs one Etherscan request, and
    nothing catches its failure: when the requests raise [e] the offer loop
    raises [e], and no dictionary is returned for the transaction. *)
Theorem nft_offer_needs_etherscan tx_hash receipt event_data rest item e :
  get_transaction_receipt tx_hash = Return receipt →
  scan' (logs receipt) [] = event_data :: rest →
  item ∈ offer event_data → 2 ≤ o_itemType item ≤ 5 →
  (∀ url, requests_get url = Raise e) →
  offer_loop requests_get (offer event_data) [] = Raise e ∧
  ∀ info, decode' tx_hash ≠ Return info.
Proof.
  intros Hreceipt Hscan Hin Htype Hdown.
  assert (∀ items acc, item ∈ items → offer_loop requests_get items acc = Raise e)
    as Hloop.
  { induction items as [|x items IH]; intros acc Hx; [by apply elem_of_nil in Hx|].
    simpl. rewrite in_nft_types. destruct (is_nft_type x) eqn:Hnft; simpl.
    - unfold get_collection_name. rewrite NFT_COLLECTIONS_lookup. cbv zeta.
      by rewrite Hdown.
    - apply elem_of_cons in Hx as [->|Hx]; [|by apply IH].
      unfold is_nft_type in Hnft. lia. }
  split; [by apply Hloop|].
  intros info Hdecode.
  apply decode_transaction_inv in Hdecode
    as (tx & receipt' & block & dt & gp & fee & ev & rest' & nfts & paid &
        _ & Hreceipt' & _ & _ & _ & _ & Hscan' & Hoffer & _).
  rewrite Hreceipt in Hreceipt'. injection Hreceipt' as <-.
  rewrite Hscan in Hscan'. injection Hscan' as <- <-.
  rewrite Hloop in Hoffer; done.
Qed.

End Decode.

(** The sale of the example chain: its receipt holds a log of the token
    contract and then the Seaport log. *)
Lemma trade_comes_from_first_seaport_event_witness :
  ∃ info,
    decode_transaction utc_zone etherscan_down chain_transaction chain_receipt chain_block
      seaport chain_process_log exact_float exact_add sale_hash = Return info ∧
    ∃ receipt before log after event_data,
      chain_receipt sale_hash = Return receipt ∧
      logs receipt = before ++ log :: after ∧
      Forall (λ l, seaport_event seaport chain_process_log l = None) before ∧
      seaport_event seaport chain_process_log log = Some event_data ∧
      lower (address log) = lower seaport ∧
      chain_process_log log = Return event_data ∧
      i_offerer _ info = offerer event_data ∧
      i_recipient _ info = ev_recipient event_data ∧
      i_zone _ info = zone event_data ∧
      order_hash _ info = hex (orderHash event_data).
Proof.
  eexists. split; [reflexivity|].
  apply (trade_comes_from_first_seaport_event utc_zone etherscan_down chain_transaction
           chain_receipt chain_block seaport chain_process_log exact_float exact_add
           sale_hash).
  reflexivity.
Defined.

(** A sale of one ERC721 token with Etherscan answering. *)
Lemma nft_items_mirror_offer_witness :
  ∃ info,
    decode_transaction utc_zone etherscan_up chain_transaction chain_receipt chain_block
      seaport nft_process_log exact_float exact_add sale_hash = Return info ∧
    ∃ receipt event_data rest,
      chain_receipt sale_hash = Return receipt ∧
      scan_logs seaport nft_process_log (logs receipt) [] = event_data :: rest ∧
      Forall2 (λ item entry,
        n_item_type entry = o_itemType item ∧
        n_token_address entry = o_token item ∧
        n_token_id entry = o_identifier item ∧
        n_amount entry = o_amount item ∧
        (is_nft entry = true ↔ 2 ≤ o_itemType item ≤ 5) ∧
        collection_name entry = (if is_nft entry then Some (o_token item) else None))
        (offer event_data) (nft_items _ info).
Proof.
  eexists. split; [reflexivity|].
  apply (nft_items_mirror_offer utc_zone etherscan_up chain_transaction
           chain_receipt chain_block seaport nft_process_log exact_float exact_add
           sale_hash).
  reflexivity.
Defined.

Lemma payment_items_mirror_consideration_witness :
  ∃ info,
    decode_transaction utc_zone etherscan_down chain_transaction chain_receipt chain_block
      seaport chain_process_log exact_float exact_add sale_hash = Return info ∧
    ∃ receipt event_data rest,
      chain_receipt sale_hash = Return receipt ∧
      scan_logs seaport chain_process_log (logs receipt) [] = event_data :: rest ∧
      Forall2 (λ item entry,
        p_item_type _ entry = itemType item ∧
        p_token_address _ entry = token item ∧
        p_token_id _ entry = identifier item ∧
        p_amount _ entry = amount item ∧
        p_recipient _ entry = recipient item ∧
        amount_eth entry =
          (if is_currency item then Some (exact_float (ether_value (amount item)))
           else None) ∧
        (is_currency item = true → 0 ≤ amount item ≤ MAX_WEI))
        (consideration event_data) (payment_items info).
Proof.
  eexists. split; [reflexivity|].
  apply (payment_items_mirror_consideration utc_zone etherscan_down chain_transaction
           chain_receipt chain_block seaport chain_process_log exact_float exact_add
           sale_hash).
  reflexivity.
Defined.

(** 150000 gas at 20 gwei: a fee of 0.003 ether. *)
Lemma fee_is_gas_used_times_gas_price_witness :
  ∃ info,
    decode_transaction utc_zone etherscan_down chain_transaction chain_receipt chain_block
      seaport chain_process_log exact_float exact_add sale_hash = Return info ∧
    ∃ tx receipt,
      chain_transaction sale_hash = Return tx ∧
      chain_receipt sale_hash = Return receipt ∧
      i_gas_used _ info = gasUsed receipt ∧
      0 ≤ gasPrice tx ≤ MAX_WEI ∧
      0 ≤ gasPrice tx * gasUsed receipt ≤ MAX_WEI ∧
      (number_to_Q (i_gas_price _ info) * inject_Z (10 ^ 9) == inject_Z (gasPrice tx))%Q ∧
      (number_to_Q (i_tx_fee_eth _ info) * inject_Z (10 ^ 18)
         == inject_Z (gasPrice tx * gasUsed receipt))%Q ∧
      (number_to_Q (i_tx_fee_eth _ info) * inject_Z (10 ^ 9)
         == number_to_Q (i_gas_price _ info) * inject_Z (i_gas_used _ info))%Q.
Proof.
  eexists. split; [reflexivity|].
  apply (fee_is_gas_used_times_gas_price utc_zone etherscan_down chain_transaction
           chain_receipt chain_block seaport chain_process_log exact_float exact_add
           sale_hash).
  reflexivity.
Defined.

(** The sale of an ERC721 token while Etherscan is out of reach. *)
Lemma nft_offer_needs_etherscan_witness :
  offer_loop etherscan_down (offer nft_sale_event) [] = Raise RequestException.
Proof.
  apply (nft_offer_needs_etherscan utc_zone etherscan_down chain_transaction
           chain_receipt chain_block seaport nft_process_log exact_float exact_add
           sale_hash
           {| blockNumber := 17000000; gasUsed := 150000;
              logs := [ {| address := "0xNFT"; topics := []; data := "" |};
                        {| address := lower seaport; topics := []; data := "sale" |} ] |}
           nft_sale_event []
           {| o_itemType := 2; o_token := "0xNFT"; o_identifier := 7; o_amount := 1 |}
           RequestException).
  - reflexivity.
  - reflexivity.
  - left.
  - simpl. lia.
  - intros url. reflexivity.
Defined.

End DecoderExtras.

(** ** The batch of transactions *)
Module OrchestratorFacts.
Import Python Decoder Orchestrator DecoderFixtures ExtraFixtures DecoderExtraFixtures.
Import DecoderFacts DecoderExtras.

Section Batch.

Variable utcoffset : Z → Z.
Variable requests_get : string → result Response.
Variable get_transaction : string → result Transaction.
Variable get_transaction_receipt : string → result Receipt.
Variable get_block : Z → result Block.
Variable chain_id : result Z.
Variable process_log : Log → result OrderFulfilled.
Context {float64 : Type}.
Variable float : number → float64.
Variable float_add : float64 → float64 → float64.

Abbreviation decode_one :=
  (decode_transaction utcoffset requests_get get_transaction get_transaction_receipt
     get_block seaport_address process_log float float_add).
Abbreviation decode_all :=
  (decode_loop utcoffset requests_get get_transaction get_transaction_receipt
     get_block process_log float float_add).
Abbreviation batch :=
  (process_transaction_batch utcoffset requests_get get_transaction
     get_transaction_receipt get_block chain_id process_log float float_add).

Lemma decode_loop_inv tx_hashes acc out :
  decode_all tx_hashes acc = Return out →
  ∃ infos, out = acc ++ infos ∧
    Forall2 (λ tx_hash info, decode_one tx_hash = Return info) tx_hashes infos.
Proof.
  revert acc. induction tx_hashes as [|tx_hash tx_hashes IH]; intros acc; simpl.
  - intros [= <-]. exists []. by rewrite app_nil_r.
  - destruct (decode_one tx_hash) as [info|] eqn:Hinfo; simpl; [|done].
    intros H. apply IH in H as (infos & -> & Hinfos).
    exists (info :: infos). rewrite <- app_assoc. split; [done|]. by constructor.
Qed.




(** X30: one transaction without a log of the Seaport contract anywhere
    in the list, a plain transfer for one, and no data frame is returned
    for the batch. *)
Theorem transfer_in_batch_loses_batch tx_hashes tx_hash receipt :
  tx_hash ∈ tx_hashes →
  get_transaction_receipt tx_hash = Return receipt →
  Forall (λ log, lower (address log) ≠ lower seaport_address) (logs receipt) →
  raises (batch tx_hashes).
Proof.
  intros Hin Hreceipt Hforeign.
  destruct (batch tx_hashes) as [rows|e] eqn:Hbatch; [|by exists e].
  revert Hbatch. unfold process_transaction_batch.
  destruct chain_id as [connected|]; simpl; [|done].
  destruct (decode_all tx_hashes []) as [infos|] eqn:Hloop; simpl; [|done].
  intros _. apply decode_loop_inv in Hloop as (infos' & _ & Hinfos).
  apply list_elem_of_lookup in Hin as [i Hi].
  destruct (Forall2_lookup_l _ _ _ _ _ Hinfos Hi) as (info & _ & Hinfo).
  apply decode_transaction_inv in Hinfo
    as (tx & receipt' & block & dt & gp & fee & ev & rest & nfts & paid &
        _ & Hreceipt' & _ & _ & _ & _ & Hscan & _).
  rewrite Hreceipt in Hreceipt'. injection Hreceipt' as <-.
  by rewrite scan_logs_foreign in Hscan.
Qed.

End Batch.



Lemma transfer_in_batch_loses_batch_witness :
  raises (process_transaction_batch utc_zone etherscan_down chain_transaction
            chain_receipt chain_block (Return 1) chain_process_log exact_float exact_add
            [sale_hash; transfer_hash]).
Proof.
  apply (transfer_in_batch_loses_batch utc_zone etherscan_down chain_transaction
           chain_receipt chain_block (Return 1) chain_process_log exact_float exact_add
           [sale_hash; transfer_hash] transfer_hash
           {| blockNumber := 17000000; gasUsed := 21000; logs := [] |}).
  - right. left.
  - reflexivity.
  - constructor.
Defined.

End OrchestratorFacts.
